(** * Market data cache: a shallow embedding of [pys/market_data.py]

    The development follows the classes of the module: [DataStorage],
    [TimeframeConverter], [TinkoffDataDownloader] and [MarketDataManager].
    Data frames are lists of rows in row order, timestamps are seconds
    since the epoch (the CSV format ["%Y-%m-%dT%H:%M:%SZ"] has second
    resolution), prices are integers in price ticks: the code only ever
    selects and compares prices, it does no arithmetic on them. *)

From Stdlib Require Import ZArith List Lia Bool String Sorting.Sorted Sorting.Permutation.
From stdpp Require Import base gmap strings.
Import ListNotations.

Local Open Scope Z_scope.

(** ** Calendar: what [pd.to_datetime], [.year], [.strftime('%Y-%m-%d')]
    and the calendar offsets of [resample] compute on naive timestamps. *)

Module Calendar.

Definition day_seconds : Z := 86400.

(** Day number (days since 1970-01-01) of a proleptic Gregorian date. *)
Definition days_from_civil (y m d : Z) : Z :=
  let y' := if m <=? 2 then y - 1 else y in
  let era := y' / 400 in
  let yoe := y' - era * 400 in
  let doy := (153 * (if 2 <? m then m - 3 else m + 9) + 2) / 5 + d - 1 in
  let doe := yoe * 365 + yoe / 4 - yoe / 100 + doy in
  era * 146097 + doe - 719468.

(** The (year, month, day) of a day number. *)
Definition civil_from_days (z : Z) : Z * Z * Z :=
  let z' := z + 719468 in
  let era := z' / 146097 in
  let doe := z' - era * 146097 in
  let yoe := (doe - doe / 1460 + doe / 36524 - doe / 146096) / 365 in
  let doy := doe - (365 * yoe + yoe / 4 - yoe / 100) in
  let mp := (5 * doy + 2) / 153 in
  let d := doy - (153 * mp + 2) / 5 + 1 in
  let m := if mp <? 10 then mp + 3 else mp - 9 in
  ((if m <=? 2 then yoe + era * 400 + 1 else yoe + era * 400), m, d).

(** [pd.to_datetime("Y-M-D")]: midnight of that date. *)
Definition to_datetime (y m d : Z) : Z := day_seconds * days_from_civil y m d.

(** [pd.to_datetime("Y-M-DTh:mi:00")]. *)
Definition at_time (y m d h mi : Z) : Z := to_datetime y m d + 3600 * h + 60 * mi.

Definition day_of (ts : Z) : Z := ts / day_seconds.

(** [ts.year] *)
Definition year (ts : Z) : Z := fst (fst (civil_from_days (day_of ts))).

(** [pd.to_datetime(ts.strftime('%Y-%m-%d'))]: the time of day is dropped. *)
Definition normalize (ts : Z) : Z := day_seconds * day_of ts.

End Calendar.

(** ** Rows and frames *)

(** A row of the minute frame, columns as named by [load_raw_csv_files]:
    [min] is the low and [max] the high of the bar. *)
Record bar := Bar {
  date : Z;
  open : Z;
  close : Z;
  min : Z;
  max : Z;
  volume : Z
}.

Definition DataFrame := list bar.

Module Frame.

(** [pd.concat(dfs, ignore_index=True)] *)
Definition concat_frames (dfs : list DataFrame) : DataFrame := List.concat dfs.

Definition seen (t : Z) (ts : list Z) : bool := existsb (Z.eqb t) ts.

Fixpoint drop_duplicates_from (ts : list Z) (df : DataFrame) : DataFrame :=
  match df with
  | [] => []
  | b :: rest =>
      if seen (date b) ts then drop_duplicates_from ts rest
      else b :: drop_duplicates_from (date b :: ts) rest
  end.

(** [df.drop_duplicates(subset=['date'])]: pandas' default is
    [keep='first'], a row is dropped when an earlier row has its date. *)
Definition drop_duplicates (df : DataFrame) : DataFrame :=
  drop_duplicates_from [] df.

Fixpoint insert_by_date (b : bar) (df : DataFrame) : DataFrame :=
  match df with
  | [] => [b]
  | c :: rest =>
      if date b <=? date c then b :: c :: rest
      else c :: insert_by_date b rest
  end.

(** [df.sort_values(by='date')]: ascending by date.  The model is the
    stable sort; pandas' default sort leaves the order of rows with
    equal dates unspecified, and [load_processed_data] and [get_data]
    sort only after [drop_duplicates], where dates are distinct. *)
Fixpoint sort_values (df : DataFrame) : DataFrame :=
  match df with
  | [] => []
  | b :: rest => insert_by_date b (sort_values rest)
  end.

(** [df['date'].min()] and [.max()] of a frame; the callers guard
    against the empty frame. *)
Definition date_min (df : DataFrame) : Z :=
  match df with
  | [] => 0
  | b :: rest => fold_left Z.min (map date rest) (date b)
  end.

Definition date_max (df : DataFrame) : Z :=
  match df with
  | [] => 0
  | b :: rest => fold_left Z.max (map date rest) (date b)
  end.

(** [df[(df['date'] >= lo) & (df['date'] <= hi)]] *)
Definition between (lo hi : Z) (df : DataFrame) : DataFrame :=
  List.filter (fun b => (lo <=? date b) && (date b <=? hi)) df.

End Frame.

(** ** DataStorage *)

Module DataStorage.
Import Frame.

(** Name of a processed fragment: [f"{ticker}_{start}_{end}.parquet"]
    with the two dates as day numbers, or [f"{ticker}_empty.parquet"]. *)
Inductive file_name :=
| Span (start_day end_day : Z)
| Empty.

Definition file_name_eqb (a b : file_name) : bool :=
  match a, b with
  | Span s1 e1, Span s2 e2 => (s1 =? s2) && (e1 =? e2)
  | Empty, Empty => true
  | _, _ => false
  end.

(** Name of a raw archive: [f"{figi}_{year}.zip"]. *)
Definition raw_name : Type := string * Z.

Definition raw_name_eqb (a b : raw_name) : bool :=
  String.eqb (fst a) (fst b) && (snd a =? snd b).

(** A CSV member of an archive: its rows, or [None] when [pd.read_csv]
    raises on it. *)
Definition csv_file : Type := option DataFrame.

(** The bytes of a raw file: the CSV members of the zip in [os.walk]
    order, or [None] when they are not a zip file. *)
Definition archive : Type := option (list csv_file).

(** The two directories of one ticker, each in [os.listdir] order.  The
    extraction directory of an archive holds the members of the archive
    as last downloaded. *)
Record storage := Storage {
  raw_dir : list (raw_name * archive);
  processed_dir : list (file_name * DataFrame)
}.

Definition empty_storage : storage := Storage [] [].

(** Writing a file: an existing name is overwritten in place, a new
    name is added to the listing. *)
Fixpoint write_file {K V} (eqb : K -> K -> bool) (k : K) (v : V)
    (dir : list (K * V)) : list (K * V) :=
  match dir with
  | [] => [(k, v)]
  | (k', v') :: rest =>
      if eqb k k' then (k, v) :: rest
      else (k', v') :: write_file eqb k v rest
  end.

Definition store_raw_data (figi : string) (year : Z)
    (content : archive) (st : storage) : raw_name * storage :=
  ((figi, year),
   Storage (write_file raw_name_eqb (figi, year) content (raw_dir st))
           (processed_dir st)).

(** The CSV members of every archive of the ticker, in listing order; a
    bad zip file is skipped. *)
Definition extract_raw_data (st : storage) : list csv_file :=
  flat_map (fun f => match snd f with Some members => members | None => [] end)
           (raw_dir st).

(** A member that cannot be read is skipped. *)
Definition load_raw_csv_files (csv_files : list csv_file) : option DataFrame :=
  let dfs :=
    flat_map (fun f => match f with Some temp_df => [temp_df] | None => [] end)
             csv_files in
  match dfs with
  | [] => None
  | _ => Some (sort_values (concat_frames dfs))
  end.

Definition save_processed_data (data : DataFrame) (st : storage)
    : file_name * storage :=
  let file_name :=
    if (0 <? length data)%nat
    then Span (Calendar.day_of (date_min data)) (Calendar.day_of (date_max data))
    else Empty in
  (file_name,
   Storage (raw_dir st)
           (write_file file_name_eqb file_name data (processed_dir st))).

Definition load_processed_data (st : storage) : option DataFrame :=
  let all_files := processed_dir st in
  match all_files with
  | [] => None
  | _ =>
      let dfs := map snd all_files in
      let combined_df := concat_frames dfs in
      Some (sort_values (drop_duplicates combined_df))
  end.

Definition get_missing_date_ranges (st : storage) (start_date end_date : Z)
    : list (Z * Z) :=
  match load_processed_data st with
  | None => [(start_date, end_date)]
  | Some existing_data =>
      if Nat.eqb (length existing_data) 0 then [(start_date, end_date)]
      else
        let min_date := date_min existing_data in
        let max_date := date_max existing_data in
        (if start_date <? min_date then [(start_date, min_date)] else [])
        ++ (if max_date <? end_date then [(max_date, end_date)] else [])
  end.

End DataStorage.

(** ** TimeframeConverter *)

Module TimeframeConverter.
Import Frame.

Definition resample_map : list (string * string) :=
  [ ("5min", "5T"); ("15min", "15T"); ("1h", "H");
    ("1d", "D"); ("1w", "W"); ("1M", "M") ]%string.

(** The pandas offsets that the rules of [resample_map] denote: a fixed
    number of seconds, the week ending on Sunday, the month end. *)
Inductive offset :=
| Tick (seconds : Z)
| WeekSun
| MonthEnd.

(** How [resample] reads a rule; only the rules of [resample_map] and
    the default ['1D'] reach it. *)
Definition to_offset (rule : string) : offset :=
  if String.eqb rule "5T" then Tick 300
  else if String.eqb rule "15T" then Tick 900
  else if String.eqb rule "H" then Tick 3600
  else if String.eqb rule "W" then WeekSun
  else if String.eqb rule "M" then MonthEnd
  else Tick 86400.

(** [d.get(key, default)] *)
Fixpoint dict_get {V} (d : list (string * V)) (key : string) (default : V) : V :=
  match d with
  | [] => default
  | (k, v) :: rest => if String.eqb k key then v else dict_get rest key default
  end.

(** Number of the bin a timestamp falls into.  Ticks that divide a day
    are anchored at midnight (closed and labelled on the left); a week
    runs from Monday to Sunday, a month is the calendar month (both
    closed and labelled on the right, at the last day). *)
Definition bin_index (r : offset) (ts : Z) : Z :=
  match r with
  | Tick w => ts / w
  | WeekSun => (Calendar.day_of ts - 4) / 7
  | MonthEnd =>
      let '(y, m, _) := Calendar.civil_from_days (Calendar.day_of ts) in
      12 * y + (m - 1)
  end.

(** The [date] that labels a bin in the output. *)
Definition bin_label (r : offset) (i : Z) : Z :=
  match r with
  | Tick w => i * w
  | WeekSun => Calendar.day_seconds * (7 * i + 10)
  | MonthEnd =>
      Calendar.day_seconds *
        (Calendar.days_from_civil ((i + 1) / 12) ((i + 1) mod 12 + 1) 1 - 1)
  end.

(** A row of a resampled frame; a price column of an empty bin is NaN
    ([None]). Columns come in the order of [agg_dict]. *)
Record row := Row {
  r_date : Z;
  r_open : option Z;
  r_min : option Z;
  r_max : option Z;
  r_close : option Z;
  r_volume : Z
}.

Definition agg_first (xs : list Z) : option Z := head xs.
Definition agg_last (xs : list Z) : option Z := last xs.
Definition agg_min (xs : list Z) : option Z :=
  match xs with [] => None | x :: rest => Some (fold_left Z.min rest x) end.
Definition agg_max (xs : list Z) : option Z :=
  match xs with [] => None | x :: rest => Some (fold_left Z.max rest x) end.
Definition agg_sum (xs : list Z) : Z := fold_left Z.add xs 0.

(** [.agg(agg_dict)] on the rows of one bin. *)
Definition agg (label : Z) (group : DataFrame) : row :=
  {| r_date := label;
     r_open := agg_first (map open group);
     r_min := agg_min (map min group);
     r_max := agg_max (map max group);
     r_close := agg_last (map close group);
     r_volume := agg_sum (map volume group) |}.

(** The rows of [df] that fall into bin [i], in row order. *)
Definition bin_rows (r : offset) (i : Z) (df : DataFrame) : DataFrame :=
  List.filter (fun b => bin_index r (date b) =? i) df.

(** [df.resample(rule).agg(agg_dict)] followed by [reset_index]: the
    index is put in order (a stable sort) and every bin from the one of
    the earliest row to the one of the latest row gives a row. *)
Definition resample (r : offset) (df : DataFrame) : list row :=
  let df := sort_values df in
  let lo := bin_index r (date_min df) in
  let hi := bin_index r (date_max df) in
  map (fun i => agg (bin_label r i) (bin_rows r i df)) (seqZ lo (hi - lo + 1)).

Definition resample_ohlcv (df : DataFrame) (timeframe : string) : list row :=
  if Nat.eqb (length df) 0 then []
  else
    let rule := dict_get resample_map timeframe "1D"%string in
    resample (to_offset rule) df.

End TimeframeConverter.

(** ** TinkoffDataDownloader *)

Module TinkoffDataDownloader.
Import Frame DataStorage.

(** A row of the instrument table fetched by [initialize_instruments]. *)
Record instrument := Instrument {
  ins_name : string;
  ins_ticker : string;
  ins_uid : string;
  ins_figi : string;
  ins_isin : string;
  ins_lot : Z;
  ins_currency : string
}.

(** What [requests.get] gives: a response, or an exception. *)
Inductive response :=
| Response (status_code : Z) (content : archive)
| RequestException.

(** What the downloader reads and never writes: the instrument table,
    the lines of [figi.txt] ([None] when the file does not exist), and
    the provider, which answers the [n]-th request made so far. *)
Record env := Env {
  df_screener_all : list instrument;
  figi_txt : option (list string);
  provider : nat -> string -> Z -> response
}.

(** What the downloader changes: the ticker's directories, the
    requests sent (oldest first) and the seconds spent in [time.sleep]. *)
Record world := World {
  store : storage;
  requests : list (string * Z);
  slept : Z
}.

Definition df_screener_rub (e : env) : list instrument :=
  List.filter (fun i => String.eqb (ins_currency i) "rub") (df_screener_all e).

Definition ticker_rows (e : env) (ticker : string) : list instrument :=
  List.filter (fun i => String.eqb (ins_ticker i) ticker) (df_screener_rub e).

Definition get_figi (e : env) (ticker : string) : list string :=
  map ins_figi (ticker_rows e ticker).

Definition get_uid (e : env) (ticker : string) : list string :=
  map ins_uid (ticker_rows e ticker).

Definition get_isin (e : env) (ticker : string) : list string :=
  map ins_isin (ticker_rows e ticker).

(** [needle in hay] on strings. *)
Fixpoint contains (needle hay : string) : bool :=
  String.prefix needle hay ||
  match hay with
  | EmptyString => false
  | String _ rest => contains needle rest
  end.

Definition is_figi_correct (e : env) (figi : string) : bool :=
  match figi_txt e with
  | Some lines => existsb (contains figi) lines
  | None => false
  end.

Fixpoint get_correct_figi (e : env) (figi_list : list string) : string :=
  match figi_list with
  | [] => "0"
  | figi :: rest =>
      if is_figi_correct e figi then figi else get_correct_figi e rest
  end.

(** One year of one identifier.  The recursion on a 429 has no bound in
    the source; [fuel] bounds the requests of the model and [None]
    means that the call has not returned within that many requests. *)
Fixpoint _download_year_data (fuel : nat) (e : env) (figi : string) (year : Z)
    (w : world) : option (option raw_name * world) :=
  match fuel with
  | O => None
  | S fuel' =>
      let reply := provider e (length (requests w)) figi year in
      let w := World (store w) (requests w ++ [(figi, year)]) (slept w) in
      match reply with
      | Response status_code content =>
          if status_code =? 200 then
            let '(file_path, st) := store_raw_data figi year content (store w) in
            Some (Some file_path, World st (requests w) (slept w))
          else if status_code =? 429 then
            _download_year_data fuel' e figi year
              (World (store w) (requests w) (slept w + 5))
          else if status_code =? 404 then Some (None, w)
          else Some (None, w)
      | RequestException => Some (None, w)
      end
  end.

(** [for year in years_to_download: ...] *)
Fixpoint download_years (fuel : nat) (e : env) (figi : string) (years : list Z)
    (downloaded_files : list raw_name) (w : world)
    : option (list raw_name * world) :=
  match years with
  | [] => Some (downloaded_files, w)
  | year :: rest =>
      match _download_year_data fuel e figi year w with
      | None => None
      | Some (Some file_path, w') =>
          download_years fuel e figi rest (downloaded_files ++ [file_path]) w'
      | Some (None, w') => download_years fuel e figi rest downloaded_files w'
      end
  end.

(** [for instrument_id in instrument_list: for year in ...] *)
Fixpoint download_ids (fuel : nat) (e : env) (instrument_list : list string)
    (years : list Z) (downloaded_files : list raw_name) (w : world)
    : option (list raw_name * world) :=
  match instrument_list with
  | [] => Some (downloaded_files, w)
  | instrument_id :: rest =>
      match download_years fuel e instrument_id years downloaded_files w with
      | None => None
      | Some (downloaded_files', w') =>
          download_ids fuel e rest years downloaded_files' w'
      end
  end.

(** [for instrument_list in [ticker_figi, ticker_isin, ticker_uid]: ...] *)
Fixpoint download_lists (fuel : nat) (e : env) (lists : list (list string))
    (years : list Z) (downloaded_files : list raw_name) (w : world)
    : option (list raw_name * world) :=
  match lists with
  | [] => Some (downloaded_files, w)
  | instrument_list :: rest =>
      match download_ids fuel e instrument_list years downloaded_files w with
      | None => None
      | Some (downloaded_files', w') =>
          download_lists fuel e rest years downloaded_files' w'
      end
  end.

Definition download_for_ticker (fuel : nat) (e : env) (ticker : string)
    (start_date end_date : Z) (w : world) : option (option DataFrame * world) :=
  let start_year := Calendar.year start_date in
  let end_year := Calendar.year end_date in
  let years_to_download := seqZ start_year (end_year + 1 - start_year) in
  let ticker_figi := get_figi e ticker in
  let ticker_uid := get_uid e ticker in
  let ticker_isin := get_isin e ticker in
  let correct_figi := get_correct_figi e ticker_figi in
  let fetched :=
    if negb (String.eqb correct_figi "0") then
      download_years fuel e correct_figi years_to_download [] w
    else
      download_lists fuel e [ticker_figi; ticker_isin; ticker_uid]
        years_to_download [] w in
  match fetched with
  | None => None
  | Some (_, w) =>
      let csv_files := extract_raw_data (store w) in
      match load_raw_csv_files csv_files with
      | Some data =>
          let data := between start_date end_date data in
          let '(_, st) := save_processed_data data (store w) in
          Some (Some data, World st (requests w) (slept w))
      | None => Some (None, w)
      end
  end.

End TinkoffDataDownloader.

(** ** MarketDataManager *)

Module MarketDataManager.
Import Frame DataStorage TimeframeConverter TinkoffDataDownloader.

(** What [get_data] returns: the minute frame or a resampled one. *)
Inductive frame :=
| Minute (df : DataFrame)
| Resampled (rows : list row).

(** The merge of a download into [existing_data]: concat, drop
    duplicates, sort. *)
Definition merge (existing_data new_data : DataFrame) : DataFrame :=
  sort_values (drop_duplicates (concat_frames [existing_data; new_data])).

(** The loop over [missing_ranges], merging what each download brings
    into [existing_data]. *)
Fixpoint backfill (fuel : nat) (e : env) (ticker : string)
    (missing_ranges : list (Z * Z)) (existing_data : DataFrame) (w : world)
    : option (DataFrame * world) :=
  match missing_ranges with
  | [] => Some (existing_data, w)
  | (range_start, range_end) :: rest =>
      match download_for_ticker fuel e ticker
              (Calendar.normalize range_start) (Calendar.normalize range_end) w with
      | None => None
      | Some (new_data, w') =>
          let existing_data :=
            match new_data with
            | Some new_data =>
                if (0 <? length new_data)%nat then merge existing_data new_data
                else existing_data
            | None => existing_data
            end in
          backfill fuel e ticker rest existing_data w'
      end
  end.

Definition get_data (fuel : nat) (e : env) (ticker : string)
    (start_date end_date : Z) (timeframe : string) (force_download : bool)
    (w : world) : option (option frame * world) :=
  let existing_data :=
    if force_download then None else load_processed_data (store w) in
  let fetched :=
    match existing_data with
    | Some existing_data =>
        let missing_ranges :=
          get_missing_date_ranges (store w) start_date end_date in
        match backfill fuel e ticker missing_ranges existing_data w with
        | None => None
        | Some (existing_data, w') =>
            Some (Some (between start_date end_date existing_data), w')
        end
    | None => download_for_ticker fuel e ticker start_date end_date w
    end in
  match fetched with
  | None => None
  | Some (Some data, w') =>
      if negb (String.eqb timeframe "1min") && (0 <? length data)%nat
      then Some (Some (Resampled (resample_ohlcv data timeframe)), w')
      else Some (Some (Minute data), w')
  | Some (None, w') => Some (None, w')
  end.

(** What [future.result()] does for a submitted [get_data]. *)
Inductive outcome :=
| Returned (data : option frame)
| Raised (message : string).

(** [for future in future_to_ticker: ...] *)
Fixpoint collect (future_to_ticker : list (outcome * string))
    (results : gmap string (option frame)) : gmap string (option frame) :=
  match future_to_ticker with
  | [] => results
  | (future, ticker) :: rest =>
      match future with
      | Returned data => collect rest (<[ticker := data]> results)
      | Raised _ => collect rest (<[ticker := None]> results)
      end
  end.

(** [executor i ticker] is the outcome of the [i]-th submitted task,
    the one for [ticker]. *)
Definition get_data_for_multiple_tickers (executor : nat -> string -> outcome)
    (tickers : list string) : gmap string (option frame) :=
  let future_to_ticker := imap (fun i ticker => (executor i ticker, ticker)) tickers in
  collect future_to_ticker ∅.

End MarketDataManager.

(** * Properties *)

Import Frame DataStorage TimeframeConverter TinkoffDataDownloader MarketDataManager.

(** ** Vocabulary of the statements *)

(** Every row of the store's fragments, in listing order. *)
Definition persisted_rows (st : storage) : DataFrame :=
  List.concat (map snd (processed_dir st)).

(** [lo] and [hi] are the earliest and the latest date of [df]. *)
Definition extent (df : DataFrame) (lo hi : Z) : Prop :=
  (exists b, In b df /\ date b = lo) /\
  (exists b, In b df /\ date b = hi) /\
  forall b, In b df -> lo <= date b <= hi.

(** [b] is in [df] and no row before it has its date. *)
Definition first_occurrence (b : bar) (df : DataFrame) : Prop :=
  exists l1 l2, df = l1 ++ b :: l2 /\ forall c, In c l1 -> date c <> date b.

(** [b] is in [df] and no row after it has its date. *)
Definition last_occurrence (b : bar) (df : DataFrame) : Prop :=
  exists l1 l2, df = l1 ++ b :: l2 /\ forall c, In c l2 -> date c <> date b.

Definition ascending (df : DataFrame) : Prop :=
  StronglySorted (fun a b => date a <= date b) df.

Definition strictly_ascending (df : DataFrame) : Prop :=
  StronglySorted (fun a b => date a < date b) df.

(** Reading of "the last write for a timestamp wins": which row of a
    timestamp [load_processed_data] returns is settled by the time of
    writing, so it is the same however the directory is listed; and the
    rows of a fresh download are the ones that the merge keeps. *)
Definition load_ignores_listing_order : Prop :=
  forall raw dir dir',
    Permutation dir dir' ->
    load_processed_data (Storage raw dir) = load_processed_data (Storage raw dir').

Definition last_write_wins_on_merge : Prop :=
  forall existing_data new_data b,
    last_occurrence b new_data -> In b (merge existing_data new_data).

(** ** Aggregation *)

(** The timeframes that [resample_map] knows. *)
Definition supported (timeframe : string) : Prop :=
  In timeframe ["5min"; "15min"; "1h"; "1d"; "1w"; "1M"]%string.

(** The rule that [resample_ohlcv] picks for a timeframe. *)
Definition rule_of (timeframe : string) : offset :=
  to_offset (dict_get resample_map timeframe "1D"%string).

Definition valid_offset (r : offset) : Prop :=
  match r with Tick w => 0 < w | _ => True end.

Definition list_sum (xs : list Z) : Z := fold_right Z.add 0 xs.

(** [rw] carries the OHLCV aggregate of the non-empty group [g]. *)
Definition aggregates (rw : row) (g : DataFrame) : Prop :=
  (exists f, head g = Some f /\ r_open rw = Some (open f)) /\
  (exists h, r_max rw = Some h /\
     (exists c, In c g /\ max c = h) /\ forall c, In c g -> max c <= h) /\
  (exists l, r_min rw = Some l /\
     (exists c, In c g /\ min c = l) /\ forall c, In c g -> l <= min c) /\
  (exists l, last g = Some l /\ r_close rw = Some (close l)) /\
  r_volume rw = list_sum (map volume g).

(** The row of a bin without input rows. *)
Definition empty_row (label : Z) : row := Row label None None None None 0.

(** Reading of "a bucket without input bars produces no row": every
    output row is the row of the bucket of some input bar. *)
Definition no_row_for_empty_bucket : Prop :=
  forall df timeframe rw,
    supported timeframe -> ascending df ->
    In rw (resample_ohlcv df timeframe) ->
    exists b, In b df /\
      r_date rw = bin_label (rule_of timeframe)
                    (bin_index (rule_of timeframe) (date b)).

(** ** Fetching *)

(** A reply with the rate-limit status. *)
Definition rate_limited (reply : response) : bool :=
  match reply with
  | Response status_code _ => status_code =? 429
  | RequestException => false
  end.

(** A reply with status 200. *)
Definition yields_data (reply : response) : bool :=
  match reply with
  | Response status_code _ => status_code =? 200
  | RequestException => false
  end.

Definition no_rate_limit (e : env) : Prop :=
  forall n figi year, rate_limited (provider e n figi year) = false.

(** The years that [download_for_ticker] walks through. *)
Definition years_of (start_date end_date : Z) : list Z :=
  seqZ (Calendar.year start_date)
       (Calendar.year end_date + 1 - Calendar.year start_date).

(** Every identifier of [ids], in order, with every year, in order. *)
Definition plan (ids : list string) (years : list Z) : list (string * Z) :=
  flat_map (fun id => map (fun year => (id, year)) years) ids.

(** Reading of "stopping once one candidate yields data": without a
    known-valid figi, once a request of the call is answered with
    status 200, no other identifier is requested. *)
Definition stops_at_first_success : Prop :=
  forall fuel e ticker start_date end_date w data w',
    get_correct_figi e (get_figi e ticker) = "0"%string ->
    download_for_ticker fuel e ticker start_date end_date w = Some (data, w') ->
    forall i j id year id' year',
      (length (requests w) <= i < j)%nat ->
      requests w' !! i = Some (id, year) ->
      yields_data (provider e i id year) = true ->
      requests w' !! j = Some (id', year') ->
      id' = id.

(** Reading of the idempotence of [get_data]: a second call with the
    same arguments returns the same series and sends no request. *)
Definition get_data_idempotent : Prop :=
  forall fuel e ticker start_date end_date timeframe w r1 w1,
    get_data fuel e ticker start_date end_date timeframe false w = Some (r1, w1) ->
    exists w2,
      get_data fuel e ticker start_date end_date timeframe false w1 = Some (r1, w2) /\
      requests w2 = requests w1.

(** The two halves of [get_data]: obtaining the minute data, and the
    conversion to the timeframe. *)
Definition obtain (fuel : nat) (e : env) (ticker : string)
    (start_date end_date : Z) (force_download : bool) (w : world)
    : option (option DataFrame * world) :=
  match (if force_download then None else load_processed_data (store w)) with
  | Some existing_data =>
      match backfill fuel e ticker
              (get_missing_date_ranges (store w) start_date end_date)
              existing_data w with
      | None => None
      | Some (existing_data, w') =>
          Some (Some (between start_date end_date existing_data), w')
      end
  | None => download_for_ticker fuel e ticker start_date end_date w
  end.

Definition convert (timeframe : string)
    (fetched : option (option DataFrame * world)) : option (option frame * world) :=
  match fetched with
  | None => None
  | Some (Some data, w') =>
      if negb (String.eqb timeframe "1min") && (0 <? length data)%nat
      then Some (Some (Resampled (resample_ohlcv data timeframe)), w')
      else Some (Some (Minute data), w')
  | Some (None, w') => Some (None, w')
  end.

(** ** Calendar arithmetic *)

(** The month count [12 * year + (month - 1)] of a day number, as
    [bin_index MonthEnd] computes it. *)
Definition month_index (z : Z) : Z :=
  let '(y, m, _) := Calendar.civil_from_days z in 12 * y + (m - 1).

(** Day number of the first day of the month with count [k]. *)
Definition month_start (k : Z) : Z :=
  Calendar.days_from_civil (k / 12) (k mod 12 + 1) 1.

(** Year of the era and shifted month of a day of the 400-year era. *)
Definition yoe_of (doe : Z) : Z :=
  (doe - doe / 1460 + doe / 36524 - doe / 146096) / 365.

Definition mp_of (doe : Z) : Z :=
  let yoe := yoe_of doe in
  (5 * (doe - (365 * yoe + yoe / 4 - yoe / 100)) + 2) / 153.

Definition era_month (doe : Z) : Z := 12 * yoe_of doe + mp_of doe.

(** A checker that the months of [n] successive days of the era, from
    [doe] on, never go back; [prev] is the month of the day before. *)
Fixpoint months_ascend (n : nat) (doe prev : Z) (acc : bool) : bool :=
  match n with
  | O => acc
  | S n' =>
      let cur := era_month doe in
      months_ascend n' (doe + 1) cur (acc && (prev <=? cur))
  end.

(** ** Files and frames, further vocabulary *)

(** The content of the file called [k] in a directory listing. *)
Definition read_file {K V} (eqb : K -> K -> bool) (k : K) (dir : list (K * V))
    : option V :=
  match find (fun f => eqb k (fst f)) dir with
  | Some f => Some (snd f)
  | None => None
  end.

Definition read_raw (st : storage) (name : raw_name) : option archive :=
  read_file raw_name_eqb name (raw_dir st).

Definition read_processed (st : storage) (name : file_name) : option DataFrame :=
  read_file file_name_eqb name (processed_dir st).

(** The name under which [save_processed_data] writes a frame. *)
Definition fragment_name (data : DataFrame) : file_name :=
  fst (save_processed_data data empty_storage).

(** The frames of the members that [pd.read_csv] can read. *)
Definition readable_frames (csv_files : list csv_file) : list DataFrame :=
  flat_map (fun f => match f with Some df => [df] | None => [] end) csv_files.

(** A bar whose open and close lie between its low and its high. *)
Definition well_formed (b : bar) : Prop :=
  min b <= open b <= max b /\ min b <= close b <= max b.

(** A raising task seen as a task that returns [None]. *)
Definition absorb (o : outcome) : outcome :=
  match o with
  | Raised _ => Returned None
  | Returned data => Returned data
  end.

(** ** Sample data *)

Module Sample.

(** The three minute bars of 2023-01-10 09:00, 09:01 and 09:04, and a
    later one of 09:10. *)
Definition b0900 : bar := Bar (Calendar.at_time 2023 1 10 9 0) 10 10 9 11 100.
Definition b0901 : bar := Bar (Calendar.at_time 2023 1 10 9 1) 10 9 8 10 50.
Definition b0904 : bar := Bar (Calendar.at_time 2023 1 10 9 4) 9 11 9 12 200.
Definition b0910 : bar := Bar (Calendar.at_time 2023 1 10 9 10) 11 12 10 13 70.

Definition jan10 : Z := Calendar.to_datetime 2023 1 10.
Definition jun30 : Z := Calendar.to_datetime 2023 6 30.
Definition jan01 : Z := Calendar.to_datetime 2023 1 1.
Definition dec31 : Z := Calendar.to_datetime 2023 12 31.

Definition first_bar : bar := Bar jan10 100 101 99 102 10.
Definition last_bar : bar := Bar jun30 110 111 109 112 20.

(** The same minute as [first_bar], with other prices. *)
Definition first_bar_again : bar := Bar jan10 200 201 199 202 30.

(** One instrument with its three identifiers. *)
Definition sber : instrument :=
  Instrument "Sberbank" "SBER" "uid-sber" "BBG004730N88" "RU0009029540" 10 "rub".

(** A provider that has [first_bar] for every identifier and year. *)
Definition generous (n : nat) (figi : string) (year : Z) : response :=
  Response 200 (Some [Some [first_bar]]).

(** A provider that answers the first two requests with 429. *)
Definition busy_twice (n : nat) (figi : string) (year : Z) : response :=
  if (n <? 2)%nat then Response 429 None
  else Response 200 (Some [Some [first_bar]]).

(** No [figi.txt]: no identifier is known to be valid. *)
Definition e_unknown : env := Env [sber] None generous.

(** [figi.txt] lists the figi of [sber]. *)
Definition e_known : env := Env [sber] (Some ["BBG004730N88"%string]) generous.

Definition e_busy : env := Env [sber] None busy_twice.

Definition w0 : world := World empty_storage [] 0.

(** A store whose only fragment spans 2023-01-10 to 2023-06-30. *)
Definition st_gap : storage :=
  snd (save_processed_data [first_bar; last_bar] empty_storage).

(** Three CSV members, the second one unreadable. *)
Definition sample_members : list csv_file :=
  [Some [last_bar]; None; Some [first_bar]].

(** A world where the archive of SBER for 2023 is already stored. *)
Definition w_raw : world :=
  World (snd (store_raw_data "BBG004730N88" 2023 (Some [Some [last_bar]]) st_gap)) [] 0.

End Sample.

(** ** Calendar *)

Section CalendarLemmas.

Lemma monotone_of_step (f : Z -> Z) :
  (forall z, f z <= f (z + 1)) -> forall a b, a <= b -> f a <= f b.
Proof.
  intros Hstep a b Hab.
  replace b with (a + Z.of_nat (Z.to_nat (b - a))) by lia.
  induction (Z.to_nat (b - a)) as [|n IH]; [by rewrite Z.add_0_r|].
  replace (a + Z.of_nat (S n)) with (a + Z.of_nat n + 1) by lia.
  etransitivity; [exact IH|apply Hstep].
Qed.

Lemma strictly_monotone_of_step (f : Z -> Z) :
  (forall z, f z < f (z + 1)) -> forall a b, a < b -> f a < f b.
Proof.
  intros Hstep a b Hab.
  assert (f (a + 1) <= f b); [|specialize (Hstep a); lia].
  apply (monotone_of_step f); [|lia]. intros z. specialize (Hstep z). lia.
Qed.

Lemma year_days y :
  365 <= ((y + 1) / 400 * 146097 + ((y + 1) - (y + 1) / 400 * 400) * 365
          + ((y + 1) - (y + 1) / 400 * 400) / 4
          - ((y + 1) - (y + 1) / 400 * 400) / 100)
       - (y / 400 * 146097 + (y - y / 400 * 400) * 365
          + (y - y / 400 * 400) / 4 - (y - y / 400 * 400) / 100).
Proof. Z.div_mod_to_equations; lia. Qed.

Lemma month_start_step k : month_start k < month_start (k + 1).
Proof.
  unfold month_start, Calendar.days_from_civil.
  assert (0 <= k mod 12 < 12) as Hm by (apply Z.mod_pos_bound; lia).
  pose proof (year_days (k / 12 - 1)) as Hy.
  replace (k / 12 - 1 + 1) with (k / 12) in Hy by lia.
  assert (k mod 12 = 11 \/ k mod 12 < 11) as [E|E] by lia.
  - assert ((k + 1) / 12 = k / 12 + 1) as -> by (Z.div_mod_to_equations; lia).
    assert ((k + 1) mod 12 = 0) as -> by (Z.div_mod_to_equations; lia).
    rewrite E. simpl. replace (k / 12 + 1 - 1) with (k / 12) by lia.
    Z.div_mod_to_equations; lia.
  - assert ((k + 1) / 12 = k / 12) as -> by (Z.div_mod_to_equations; lia).
    assert ((k + 1) mod 12 = k mod 12 + 1) as -> by (Z.div_mod_to_equations; lia).
    assert (k mod 12 = 0 \/ k mod 12 = 1 \/ 2 <= k mod 12) as [E'|[E'|E']] by lia.
    + rewrite E'. simpl. Z.div_mod_to_equations; lia.
    + rewrite E'. simpl. Z.div_mod_to_equations; lia.
    + destruct (k mod 12 + 1 <=? 2) eqn:A; [lia|].
      destruct (k mod 12 + 1 + 1 <=? 2) eqn:B; [lia|].
      destruct (2 <? k mod 12 + 1) eqn:C; [|lia].
      destruct (2 <? k mod 12 + 1 + 1) eqn:D; [|lia].
      Z.div_mod_to_equations; lia.
Qed.

Lemma doy_bounds doe : 0 <= doe < 146097 ->
  0 <= doe - (365 * yoe_of doe + yoe_of doe / 4 - yoe_of doe / 100) <= 365.
Proof. intros H. unfold yoe_of. Z.div_mod_to_equations; lia. Qed.

Lemma mp_bounds doe : 0 <= doe < 146097 -> 0 <= mp_of doe <= 11.
Proof.
  intros H. pose proof (doy_bounds doe H). unfold mp_of. cbv zeta.
  Z.div_mod_to_equations; lia.
Qed.

Lemma month_index_eq z :
  month_index z =
    12 * (yoe_of ((z + 719468) mod 146097) + 400 * ((z + 719468) / 146097))
    + mp_of ((z + 719468) mod 146097) + 2.
Proof.
  assert (0 <= (z + 719468) mod 146097 < 146097) as Hd
    by (apply Z.mod_pos_bound; lia).
  pose proof (mp_bounds _ Hd) as Hmp.
  unfold month_index, Calendar.civil_from_days.
  replace (z + 719468 - (z + 719468) / 146097 * 146097)
    with ((z + 719468) mod 146097) by (rewrite Z.mod_eq by lia; lia).
  fold (yoe_of ((z + 719468) mod 146097)).
  fold (mp_of ((z + 719468) mod 146097)).
  generalize dependent (mp_of ((z + 719468) mod 146097)). intros mp Hmp.
  destruct (mp <? 10) eqn:A.
  - apply Z.ltb_lt in A. destruct (mp + 3 <=? 2) eqn:B; lia.
  - apply Z.ltb_ge in A. destruct (mp - 9 <=? 2) eqn:B; lia.
Qed.

Lemma months_ascend_sound n : forall doe prev acc,
  months_ascend n doe prev acc = true ->
  acc = true /\
  ((0 < n)%nat -> prev <= era_month doe) /\
  forall k, 0 <= k -> k + 1 < Z.of_nat n ->
    era_month (doe + k) <= era_month (doe + k + 1).
Proof.
  induction n as [|n IH]; intros doe prev acc H; simpl in H.
  - split; [done|]. split; [lia|]. intros k Hk. lia.
  - apply IH in H as (Hacc & Hfirst & Hall).
    apply andb_prop in Hacc as [-> Hprev]. apply Z.leb_le in Hprev.
    split; [done|]. split; [done|]. intros k Hk Hkn.
    destruct (Z.eq_dec k 0) as [->|Hne].
    + rewrite Z.add_0_r. apply Hfirst. lia.
    + replace (doe + k) with (doe + 1 + (k - 1)) by lia. apply Hall; lia.
Qed.

Lemma era_months_ascend : months_ascend (Z.to_nat 146097) 0 0 true = true.
Proof. vm_compute. reflexivity. Qed.

Lemma era_month_step doe :
  0 <= doe < 146096 -> era_month doe <= era_month (doe + 1).
Proof.
  intros H. destruct (months_ascend_sound _ _ _ _ era_months_ascend) as (_ & _ & A).
  apply (A doe); lia.
Qed.

Lemma month_index_step z : month_index z <= month_index (z + 1).
Proof.
  rewrite !month_index_eq.
  assert (0 <= (z + 719468) mod 146097 < 146097) as Hd
    by (apply Z.mod_pos_bound; lia).
  assert ((z + 719468) mod 146097 = 146096 \/ (z + 719468) mod 146097 < 146096)
    as [E|E] by lia.
  - assert ((z + 1 + 719468) mod 146097 = 0) as ->
      by (Z.div_mod_to_equations; lia).
    assert ((z + 1 + 719468) / 146097 = (z + 719468) / 146097 + 1) as ->
      by (Z.div_mod_to_equations; lia).
    rewrite E.
    change (yoe_of 0) with 0. change (mp_of 0) with 0.
    change (yoe_of 146096) with 399. change (mp_of 146096) with 11. lia.
  - assert ((z + 1 + 719468) mod 146097 = (z + 719468) mod 146097 + 1) as ->
      by (Z.div_mod_to_equations; lia).
    assert ((z + 1 + 719468) / 146097 = (z + 719468) / 146097) as ->
      by (Z.div_mod_to_equations; lia).
    pose proof (era_month_step ((z + 719468) mod 146097)) as A.
    unfold era_month in A. lia.
Qed.

Lemma month_index_monotone a b : a <= b -> month_index a <= month_index b.
Proof. apply monotone_of_step, month_index_step. Qed.

Lemma month_start_monotone a b : a < b -> month_start a < month_start b.
Proof. apply strictly_monotone_of_step, month_start_step. Qed.

Lemma day_of_monotone a b : a <= b -> Calendar.day_of a <= Calendar.day_of b.
Proof. intros H. unfold Calendar.day_of, Calendar.day_seconds. by apply Z.div_le_mono. Qed.

End CalendarLemmas.

(** ** Frames *)

Section FrameLemmas.

Lemma insert_by_date_perm b df : Permutation (insert_by_date b df) (b :: df).
Proof.
  induction df as [|c rest IH]; simpl; [done|].
  destruct (date b <=? date c); [done|].
  rewrite IH. apply perm_swap.
Qed.

Lemma sort_values_perm df : Permutation (sort_values df) df.
Proof.
  induction df as [|b rest IH]; simpl; [done|].
  rewrite insert_by_date_perm. by constructor.
Qed.

Lemma sort_values_In b df : In b (sort_values df) <-> In b df.
Proof.
  split; apply Permutation_in;
    [apply sort_values_perm | symmetry; apply sort_values_perm].
Qed.

Lemma sort_values_length df : length (sort_values df) = length df.
Proof. apply Permutation_length, sort_values_perm. Qed.

Lemma insert_by_date_ascending b df :
  ascending df -> ascending (insert_by_date b df).
Proof.
  unfold ascending. induction 1 as [|c rest Hs IH Hc]; simpl.
  - repeat constructor.
  - destruct (date b <=? date c) eqn:E.
    + apply Z.leb_le in E. constructor; [by constructor|].
      constructor; [done|].
      eapply Forall_impl; [exact Hc|]. simpl. intros; lia.
    + apply Z.leb_gt in E. constructor; [done|].
      eapply Permutation_Forall; [symmetry; apply insert_by_date_perm|].
      constructor; [lia|done].
Qed.

Lemma sort_values_ascending df : ascending (sort_values df).
Proof.
  induction df; simpl; [constructor|]. by apply insert_by_date_ascending.
Qed.

(** The sort is stable: a frame already in order is left as it is. *)
Lemma sort_values_sorted df : ascending df -> sort_values df = df.
Proof.
  unfold ascending. induction 1 as [|c rest Hs IH Hc]; simpl; [done|].
  rewrite IH. destruct rest as [|d rest']; simpl; [done|].
  inversion Hc; subst. by rewrite (proj2 (Z.leb_le _ _)).
Qed.

Lemma strictly_ascending_ascending df : strictly_ascending df -> ascending df.
Proof.
  unfold strictly_ascending, ascending. induction 1; constructor; [done|].
  eapply Forall_impl; [eassumption|]. simpl. intros; lia.
Qed.

Lemma ascending_NoDup_strict df :
  ascending df -> List.NoDup (map date df) -> strictly_ascending df.
Proof.
  unfold ascending, strictly_ascending.
  induction 1 as [|c rest Hs IH Hc]; simpl; intros Hn; [constructor|].
  apply NoDup_cons_iff in Hn as [Hnin Hn]. constructor; [by apply IH|].
  rewrite List.Forall_forall in *. intros d Hd.
  assert (date c <> date d).
  { intros E. apply Hnin. rewrite E. apply in_map_iff. eauto. }
  specialize (Hc d Hd). simpl in Hc. lia.
Qed.

Lemma seen_In t ts : seen t ts = true <-> In t ts.
Proof.
  unfold seen. rewrite existsb_exists. split.
  - intros (x & Hx & E). apply Z.eqb_eq in E. by subst.
  - intros H. exists t. split; [done|apply Z.eqb_refl].
Qed.

Lemma drop_duplicates_from_In ts df b :
  In b (drop_duplicates_from ts df) <->
  first_occurrence b df /\ ~ In (date b) ts.
Proof.
  revert ts. induction df as [|c rest IH]; intros ts; simpl.
  - split; [done|]. intros [(l1 & l2 & E & _) _]. by destruct l1.
  - destruct (seen (date c) ts) eqn:E.
    + apply seen_In in E. rewrite IH. split.
      * intros [(l1 & l2 & -> & Hl1) Hts]. split; [|done].
        exists (c :: l1), l2. split; [done|].
        intros d [<-|Hd]; [congruence|by apply Hl1].
      * intros [(l1 & l2 & E' & Hl1) Hts]. split; [|done].
        destruct l1 as [|d l1]; simpl in E'; inversion E'; subst; [done|].
        exists l1, l2. split; [done|]. intros; apply Hl1; by right.
    + assert (~ In (date c) ts) as Hc.
      { intros H. apply seen_In in H. congruence. }
      simpl. rewrite IH. split.
      * intros [<-|[(l1 & l2 & -> & Hl1) Hts]].
        -- split; [|done]. exists [], rest. split; [done|]. by intros ? [].
        -- split; [|intros H; apply Hts; by right].
           exists (c :: l1), l2. split; [done|].
           intros d [<-|Hd]; [|by apply Hl1]. intros E'. apply Hts. by left.
      * intros [(l1 & l2 & E' & Hl1) Hts].
        destruct l1 as [|d l1]; simpl in E'; inversion E'; subst; [by left|].
        right. split.
        -- exists l1, l2. split; [done|]. intros; apply Hl1; by right.
        -- intros [E''|H]; [|done]. apply (Hl1 d); [by left|done].
Qed.

Lemma drop_duplicates_In b df :
  In b (drop_duplicates df) <-> first_occurrence b df.
Proof.
  unfold drop_duplicates. rewrite drop_duplicates_from_In. simpl. tauto.
Qed.

Lemma drop_duplicates_from_NoDup ts df :
  List.NoDup (map date (drop_duplicates_from ts df)) /\
  forall b, In b (drop_duplicates_from ts df) -> ~ In (date b) ts.
Proof.
  revert ts. induction df as [|c rest IH]; intros ts; simpl.
  - split; [apply List.NoDup_nil|done].
  - destruct (seen (date c) ts) eqn:E; [apply IH|].
    destruct (IH (date c :: ts)) as [Hn Hnin]. split.
    + simpl. apply List.NoDup_cons; [|done]. intros H.
      apply in_map_iff in H as (d & Ed & Hd).
      apply (Hnin d Hd). by left.
    + intros b [<-|Hb].
      * intros H. apply seen_In in H. congruence.
      * intros H. apply (Hnin b Hb). by right.
Qed.

Lemma drop_duplicates_NoDup df : List.NoDup (map date (drop_duplicates df)).
Proof. apply drop_duplicates_from_NoDup. Qed.

Lemma first_occurrence_In b df : first_occurrence b df -> In b df.
Proof. intros (l1 & l2 & -> & _). apply in_elt. Qed.

Lemma first_occurrence_exists b df :
  In b df -> exists b', first_occurrence b' df /\ date b' = date b.
Proof.
  induction df as [|c rest IH]; [done|]. intros Hb.
  destruct (Z.eq_dec (date c) (date b)) as [E|E].
  - exists c. split; [|done]. exists [], rest. split; [done|]. by intros ? [].
  - destruct Hb as [->|Hb]; [done|].
    destruct (IH Hb) as (b' & (l1 & l2 & -> & Hl1) & Eb').
    exists b'. split; [|done]. exists (c :: l1), l2. split; [done|].
    intros d [<-|Hd]; [congruence|by apply Hl1].
Qed.

Lemma drop_duplicates_dates d df :
  In d (map date (drop_duplicates df)) <-> In d (map date df).
Proof.
  rewrite !in_map_iff. split.
  - intros (b & <- & Hb). exists b. split; [done|].
    by apply first_occurrence_In, drop_duplicates_In.
  - intros (b & <- & Hb).
    destruct (first_occurrence_exists b df Hb) as (b' & Hb' & E).
    exists b'. split; [done|]. by apply drop_duplicates_In.
Qed.

Lemma normal_form_dates d df :
  In d (map date (sort_values (drop_duplicates df))) <-> In d (map date df).
Proof.
  transitivity (In d (map date (drop_duplicates df)));
    [|apply drop_duplicates_dates].
  rewrite !in_map_iff.
  split; intros (b & <- & Hb); exists b; split; try done.
  - by apply (proj1 (sort_values_In _ _)).
  - by apply (proj2 (sort_values_In _ _)).
Qed.

Lemma normal_form_strict df :
  strictly_ascending (sort_values (drop_duplicates df)).
Proof.
  apply ascending_NoDup_strict; [apply sort_values_ascending|].
  eapply Permutation_NoDup; [|apply drop_duplicates_NoDup].
  apply Permutation_map. symmetry. apply sort_values_perm.
Qed.

Lemma drop_duplicates_from_fresh ts df :
  (forall b, In b df -> ~ In (date b) ts) ->
  List.NoDup (map date df) ->
  drop_duplicates_from ts df = df.
Proof.
  revert ts. induction df as [|c rest IH]; intros ts Hts Hn; simpl; [done|].
  simpl in Hn. apply List.NoDup_cons_iff in Hn as [Hnin Hn].
  destruct (seen (date c) ts) eqn:E.
  - apply seen_In in E. destruct (Hts c); [by left|done].
  - f_equal. apply IH; [|done].
    intros b Hb [E'|H]; [|by apply (Hts b); [right|]].
    apply Hnin. rewrite E'. apply in_map_iff. eauto.
Qed.

Lemma strictly_ascending_NoDup df :
  strictly_ascending df -> List.NoDup (map date df).
Proof.
  unfold strictly_ascending. induction 1 as [|c rest Hs IH Hc]; simpl.
  - apply List.NoDup_nil.
  - apply List.NoDup_cons; [|done]. intros H.
    apply in_map_iff in H as (d & E & Hd).
    rewrite List.Forall_forall in Hc. specialize (Hc d Hd). simpl in Hc. lia.
Qed.

(** Dropping duplicates leaves a frame with distinct dates as it is. *)
Lemma drop_duplicates_strict df :
  strictly_ascending df -> drop_duplicates df = df.
Proof.
  intros H. apply drop_duplicates_from_fresh; [by intros ? _ []|].
  by apply strictly_ascending_NoDup.
Qed.

Lemma fold_left_min_spec l a :
  let m := fold_left Z.min l a in
  (m = a \/ In m l) /\ m <= a /\ forall x, In x l -> m <= x.
Proof.
  revert a. induction l as [|y l IH]; intros a; simpl;
    [split; [by left|split; [lia|done]]|].
  destruct (IH (Z.min a y)) as (Hin & Hle & Hall).
  split; [|split].
  - destruct Hin as [E|Hin]; [|by auto].
    rewrite E. destruct (Z.min_spec a y) as [[_ ->]|[_ ->]];
      [by left|by (right; left)].
  - lia.
  - intros x [<-|Hx]; [lia|by apply Hall].
Qed.

Lemma fold_left_max_spec l a :
  let m := fold_left Z.max l a in
  (m = a \/ In m l) /\ a <= m /\ forall x, In x l -> x <= m.
Proof.
  revert a. induction l as [|y l IH]; intros a; simpl;
    [split; [by left|split; [lia|done]]|].
  destruct (IH (Z.max a y)) as (Hin & Hle & Hall).
  split; [|split].
  - destruct Hin as [E|Hin]; [|by auto].
    rewrite E. destruct (Z.max_spec a y) as [[_ ->]|[_ ->]];
      [by (right; left)|by left].
  - lia.
  - intros x [<-|Hx]; [lia|by apply Hall].
Qed.

Lemma date_extent df : df <> [] -> extent df (date_min df) (date_max df).
Proof.
  destruct df as [|b rest]; [done|]. intros _. unfold date_min, date_max.
  destruct (fold_left_min_spec (map date rest) (date b)) as (Hi & Hl & Ha).
  destruct (fold_left_max_spec (map date rest) (date b)) as (Hi' & Hl' & Ha').
  split; [|split].
  - destruct Hi as [E|Hi]; [exists b; split; [by left|done]|].
    apply in_map_iff in Hi as (c & E & Hc). exists c. split; [by right|done].
  - destruct Hi' as [E|Hi']; [exists b; split; [by left|done]|].
    apply in_map_iff in Hi' as (c & E & Hc). exists c. split; [by right|done].
  - intros c [<-|Hc]; [lia|].
    assert (In (date c) (map date rest)) by (apply in_map_iff; eauto).
    split; [by apply Ha|by apply Ha'].
Qed.

Lemma extent_unique df lo hi lo' hi' :
  extent df lo hi -> extent df lo' hi' -> lo = lo' /\ hi = hi'.
Proof.
  intros ((a & Ha & <-) & (b & Hb & <-) & H) ((a' & Ha' & <-) & (b' & Hb' & <-) & H').
  pose proof (H a' Ha'). pose proof (H b' Hb').
  pose proof (H' a Ha). pose proof (H' b Hb). lia.
Qed.

Lemma extent_same_dates df df' lo hi :
  (forall d, In d (map date df) <-> In d (map date df')) ->
  extent df lo hi -> extent df' lo hi.
Proof.
  intros Hd ((a & Ha & <-) & (b & Hb & <-) & H).
  assert (forall c, In c df -> exists c', In c' df' /\ date c' = date c) as Hto.
  { intros c Hc. assert (In (date c) (map date df')) as H'.
    { apply Hd, in_map_iff. eauto. }
    apply in_map_iff in H' as (c' & E & Hc'). eauto. }
  assert (forall c, In c df' -> exists c', In c' df /\ date c' = date c) as Hfrom.
  { intros c Hc. assert (In (date c) (map date df)) as H'.
    { apply Hd, in_map_iff. eauto. }
    apply in_map_iff in H' as (c' & E & Hc'). eauto. }
  split; [by apply Hto|]. split; [by apply Hto|].
  intros c Hc. destruct (Hfrom c Hc) as (c' & Hc' & <-). by apply H.
Qed.

Lemma extent_nonempty df lo hi : extent df lo hi -> df <> [].
Proof. intros ((a & Ha & _) & _) ->. done. Qed.

End FrameLemmas.

(** ** The store *)

Section StorageLemmas.

Lemma load_processed_data_rows st :
  load_processed_data st =
    match processed_dir st with
    | [] => None
    | _ => Some (sort_values (drop_duplicates (persisted_rows st)))
    end.
Proof. unfold load_processed_data, persisted_rows. by destruct (processed_dir st). Qed.

Lemma persisted_rows_nonempty st :
  persisted_rows st <> [] -> processed_dir st <> [].
Proof. unfold persisted_rows. by destruct (processed_dir st). Qed.

Lemma normal_form_nonempty df : df <> [] -> sort_values (drop_duplicates df) <> [].
Proof.
  destruct df as [|b rest]; [done|]. intros _ E.
  assert (In (date b) (map date (sort_values (drop_duplicates (b :: rest))))) as H.
  { apply normal_form_dates. by left. }
  by rewrite E in H.
Qed.

Lemma missing_ranges_of_extent st lo hi start_date end_date :
  extent (persisted_rows st) lo hi ->
  get_missing_date_ranges st start_date end_date =
    (if start_date <? lo then [(start_date, lo)] else []) ++
    (if hi <? end_date then [(hi, end_date)] else []).
Proof.
  intros Hext. pose proof (extent_nonempty _ _ _ Hext) as Hne.
  unfold get_missing_date_ranges. rewrite load_processed_data_rows.
  destruct (processed_dir st) eqn:Ed.
  { by apply persisted_rows_nonempty in Hne. }
  pose proof (normal_form_nonempty _ Hne) as Hne'.
  set (df := sort_values (drop_duplicates (persisted_rows st))) in *.
  assert (Nat.eqb (length df) 0 = false) as -> by by destruct df.
  assert (extent df lo hi) as Hext'.
  { eapply extent_same_dates; [|exact Hext]. intros d. symmetry.
    apply normal_form_dates. }
  destruct (extent_unique _ _ _ _ _ Hext' (date_extent df Hne')) as [-> ->].
  done.
Qed.

End StorageLemmas.

(** ** Resampling *)

Section ResampleLemmas.

Lemma rule_of_supported timeframe :
  supported timeframe -> valid_offset (rule_of timeframe).
Proof.
  unfold supported. simpl.
  intros [<-|[<-|[<-|[<-|[<-|[<-|[]]]]]]]; by vm_compute.
Qed.

Lemma bin_index_monotone r a b :
  valid_offset r -> a <= b -> bin_index r a <= bin_index r b.
Proof.
  destruct r as [w| |]; simpl; intros Hw Hab.
  - by apply Z.div_le_mono.
  - apply Z.div_le_mono; [lia|]. apply day_of_monotone in Hab. lia.
  - change (month_index (Calendar.day_of a) <= month_index (Calendar.day_of b)).
    by apply month_index_monotone, day_of_monotone.
Qed.

Lemma bin_label_monotone r i j :
  valid_offset r -> i < j -> bin_label r i < bin_label r j.
Proof.
  destruct r as [w| |]; simpl; intros Hw Hij.
  - nia.
  - unfold Calendar.day_seconds. lia.
  - assert (month_start (i + 1) < month_start (j + 1)) as H
      by (apply month_start_monotone; lia).
    unfold month_start in H. unfold Calendar.day_seconds. lia.
Qed.

Lemma bin_label_inj r i j :
  valid_offset r -> bin_label r i = bin_label r j -> i = j.
Proof.
  intros Hr E. destruct (Z.lt_total i j) as [H|[H|H]]; [|done|];
    apply (bin_label_monotone r) in H; try done; lia.
Qed.

Lemma resample_ohlcv_rule df timeframe :
  df <> [] -> resample_ohlcv df timeframe = resample (rule_of timeframe) df.
Proof. by destruct df. Qed.

Lemma In_seqZ i lo n : In i (seqZ lo n) <-> lo <= i < lo + n.
Proof. rewrite <- list_elem_of_In. apply elem_of_seqZ. Qed.

Lemma bin_rows_In r i df b :
  In b (bin_rows r i df) <-> In b df /\ bin_index r (date b) = i.
Proof. unfold bin_rows. rewrite filter_In. by rewrite Z.eqb_eq. Qed.

Lemma filter_ascending (p : bar -> bool) df :
  ascending df -> ascending (List.filter p df).
Proof.
  unfold ascending. induction 1 as [|c rest Hs IH Hc]; simpl; [constructor|].
  destruct (p c); [|done]. constructor; [done|].
  rewrite List.Forall_forall in *. intros d Hd.
  apply filter_In in Hd as [Hd _]. by apply Hc.
Qed.

Lemma last_map {A B} (h : A -> B) (l : list A) :
  last (map h l) = option_map h (last l).
Proof.
  induction l as [|x [|y l] IH]; [done..|]. exact IH.
Qed.

Lemma agg_sum_list_sum xs : agg_sum xs = list_sum xs.
Proof.
  unfold agg_sum. assert (forall a, fold_left Z.add xs a = a + list_sum xs) as H.
  { induction xs as [|x xs IH]; intros a; simpl; [lia|]. rewrite IH. lia. }
  by rewrite H.
Qed.

Lemma agg_aggregates label g : g <> [] -> aggregates (agg label g) g.
Proof.
  destruct g as [|f rest]; [done|]. intros _. unfold aggregates, agg. simpl r_open.
  split; [by exists f|].
  split; [|split; [|split]].
  - cbn [r_max agg_max map].
    destruct (fold_left_max_spec (map max rest) (max f)) as (Hi & Hl & Ha).
    eexists. split; [done|]. split.
    + destruct Hi as [E|Hi]; [exists f; split; [by left|done]|].
      apply in_map_iff in Hi as (c & E & Hc). exists c. split; [by right|done].
    + intros c [<-|Hc]; [done|]. apply Ha, in_map_iff. eauto.
  - cbn [r_min agg_min map].
    destruct (fold_left_min_spec (map min rest) (min f)) as (Hi & Hl & Ha).
    eexists. split; [done|]. split.
    + destruct Hi as [E|Hi]; [exists f; split; [by left|done]|].
      apply in_map_iff in Hi as (c & E & Hc). exists c. split; [by right|done].
    + intros c [<-|Hc]; [done|]. apply Ha, in_map_iff. eauto.
  - cbn [r_close]. unfold agg_last. rewrite last_map.
    destruct (last (f :: rest)) as [l|] eqn:E.
    + by exists l.
    + by apply last_None in E.
  - cbn [r_volume]. apply agg_sum_list_sum.
Qed.

Lemma agg_empty label : agg label [] = empty_row label.
Proof. reflexivity. Qed.

(** On a frame in date order, the rows of [resample] are those of the
    bins from the bin of the earliest date to the bin of the latest. *)
Lemma resample_rows r df rw :
  ascending df ->
  In rw (resample r df) <->
  exists i, bin_index r (date_min df) <= i <= bin_index r (date_max df) /\
            rw = agg (bin_label r i) (bin_rows r i df).
Proof.
  intros Hs. unfold resample. rewrite (sort_values_sorted _ Hs).
  rewrite in_map_iff. split.
  - intros (i & <- & Hi). apply In_seqZ in Hi. exists i. split; [lia|done].
  - intros (i & Hi & ->). exists i. split; [done|]. apply In_seqZ. lia.
Qed.

Lemma bin_index_in_range r df b :
  valid_offset r -> In b df ->
  bin_index r (date_min df) <= bin_index r (date b) <= bin_index r (date_max df).
Proof.
  intros Hr Hb. assert (df <> []) as Hne by by destruct df.
  destruct (date_extent df Hne) as (_ & _ & H). specialize (H b Hb).
  split; apply bin_index_monotone; try done; lia.
Qed.

Lemma seqZ_sorted m n : StronglySorted Z.lt (seqZ m n).
Proof.
  remember (Z.to_nat n) as k eqn:Ek. revert m n Ek.
  induction k as [|k IH]; intros m n Ek.
  - rewrite seqZ_nil by lia. constructor.
  - rewrite seqZ_cons by lia. constructor; [apply IH; lia|].
    apply Forall_seqZ. intros; lia.
Qed.

Lemma map_sorted {A B} (R : A -> A -> Prop) (R' : B -> B -> Prop) (h : A -> B) l :
  (forall x y, R x y -> R' (h x) (h y)) ->
  StronglySorted R l -> StronglySorted R' (map h l).
Proof.
  intros Hh. induction 1 as [|x l Hs IH Hx]; simpl; constructor; [done|].
  rewrite List.Forall_forall in *. intros y Hy.
  apply in_map_iff in Hy as (z & <- & Hz). by apply Hh, Hx.
Qed.

Lemma resample_sorted r df :
  valid_offset r ->
  StronglySorted (fun a b => r_date a < r_date b) (resample r df).
Proof.
  intros Hr. unfold resample.
  eapply map_sorted; [|apply seqZ_sorted].
  intros i j Hij. simpl. by apply bin_label_monotone.
Qed.

Lemma resample_dates r df :
  ascending df ->
  map r_date (resample r df) =
    map (bin_label r)
      (seqZ (bin_index r (date_min df))
            (bin_index r (date_max df) - bin_index r (date_min df) + 1)).
Proof.
  intros Hs. unfold resample. rewrite (sort_values_sorted _ Hs).
  rewrite map_map. by apply map_ext.
Qed.

End ResampleLemmas.

(** ** Downloads *)

Section DownloadLemmas.

Variable e : env.

Lemma download_year_limited figi year fuel : forall w,
  (forall k, (k < fuel)%nat ->
     rate_limited (provider e (length (requests w) + k) figi year) = true) ->
  _download_year_data fuel e figi year w = None.
Proof.
  induction fuel as [|fuel IH]; intros w H; simpl; [done|].
  pose proof (H O ltac:(lia)) as H0. rewrite Nat.add_0_r in H0.
  destruct (provider e (length (requests w)) figi year) as [c content|]; [|done].
  simpl in H0. apply Z.eqb_eq in H0 as ->. simpl.
  apply IH. intros k Hk. simpl. rewrite length_app. simpl.
  replace (length (requests w) + 1 + k)%nat
    with (length (requests w) + S k)%nat by lia.
  apply H. lia.
Qed.

Lemma download_year_retries figi year n : forall fuel w,
  (n < fuel)%nat ->
  (forall k, (k < n)%nat ->
     rate_limited (provider e (length (requests w) + k) figi year) = true) ->
  rate_limited (provider e (length (requests w) + n) figi year) = false ->
  exists r w',
    _download_year_data fuel e figi year w = Some (r, w') /\
    requests w' = requests w ++ repeat (figi, year) (S n) /\
    slept w' = slept w + 5 * Z.of_nat n.
Proof.
  induction n as [|n IH]; intros fuel w Hf Hlim Hok;
    (destruct fuel as [|fuel]; [lia|]); simpl.
  - rewrite Nat.add_0_r in Hok.
    destruct (provider e (length (requests w)) figi year) as [c content|].
    + simpl in Hok. destruct (c =? 200); [|rewrite Hok; destruct (c =? 404)];
        eexists _, _; (split; [done|]); simpl; split; (done || lia).
    + eexists _, _. split; [done|]. simpl. split; (done || lia).
  - pose proof (Hlim O ltac:(lia)) as H0. rewrite Nat.add_0_r in H0.
    destruct (provider e (length (requests w)) figi year) as [c content|]; [|done].
    simpl in H0. apply Z.eqb_eq in H0 as ->. simpl.
    destruct (IH fuel (World (store w) (requests w ++ [(figi, year)]) (slept w + 5)))
      as (r & w' & E & Hreq & Hsl).
    + lia.
    + intros k Hk. simpl. rewrite length_app. simpl.
      replace (length (requests w) + 1 + k)%nat
        with (length (requests w) + S k)%nat by lia.
      apply Hlim. lia.
    + simpl. rewrite length_app. simpl.
      by replace (length (requests w) + 1 + n)%nat
        with (length (requests w) + S n)%nat by lia.
    + exists r, w'. split; [done|]. simpl in Hreq, Hsl. split.
      * rewrite Hreq. by rewrite <- app_assoc.
      * lia.
Qed.

Hypothesis Hfree : no_rate_limit e.

Lemma download_year_once figi year fuel w :
  (0 < fuel)%nat ->
  exists r w',
    _download_year_data fuel e figi year w = Some (r, w') /\
    requests w' = requests w ++ [(figi, year)].
Proof.
  intros Hf.
  destruct (download_year_retries figi year 0 fuel w Hf) as (r & w' & E & Hreq & _).
  - intros; lia.
  - apply Hfree.
  - by exists r, w'.
Qed.

Lemma download_years_requests figi fuel years : forall files w,
  (0 < fuel)%nat ->
  exists files' w',
    download_years fuel e figi years files w = Some (files', w') /\
    requests w' = requests w ++ map (fun year => (figi, year)) years.
Proof.
  induction years as [|year rest IH]; intros files w Hf; simpl.
  - eexists _, _. split; [done|]. by rewrite app_nil_r.
  - destruct (download_year_once figi year fuel w Hf) as (r & w1 & -> & Hreq).
    destruct r as [file_path|].
    + destruct (IH (files ++ [file_path]) w1 Hf) as (files' & w' & -> & Hreq').
      eexists _, _. split; [done|]. rewrite Hreq', Hreq. by rewrite <- app_assoc.
    + destruct (IH files w1 Hf) as (files' & w' & -> & Hreq').
      eexists _, _. split; [done|]. rewrite Hreq', Hreq. by rewrite <- app_assoc.
Qed.

Lemma download_ids_requests fuel years ids : forall files w,
  (0 < fuel)%nat ->
  exists files' w',
    download_ids fuel e ids years files w = Some (files', w') /\
    requests w' = requests w ++ plan ids years.
Proof.
  induction ids as [|id rest IH]; intros files w Hf; simpl.
  - eexists _, _. split; [done|]. by rewrite app_nil_r.
  - destruct (download_years_requests id fuel years files w Hf)
      as (files1 & w1 & -> & Hreq).
    destruct (IH files1 w1 Hf) as (files' & w' & -> & Hreq').
    eexists _, _. split; [done|]. rewrite Hreq', Hreq. by rewrite <- app_assoc.
Qed.

Lemma download_lists_requests fuel years lists : forall files w,
  (0 < fuel)%nat ->
  exists files' w',
    download_lists fuel e lists years files w = Some (files', w') /\
    requests w' = requests w ++ plan (List.concat lists) years.
Proof.
  induction lists as [|ids rest IH]; intros files w Hf; simpl.
  - eexists _, _. split; [done|]. by rewrite app_nil_r.
  - destruct (download_ids_requests fuel years ids files w Hf)
      as (files1 & w1 & -> & Hreq).
    destruct (IH files1 w1 Hf) as (files' & w' & -> & Hreq').
    eexists _, _. split; [done|]. rewrite Hreq', Hreq.
    unfold plan. by rewrite flat_map_app, <- app_assoc.
Qed.

End DownloadLemmas.

Lemma get_correct_figi_spec e figi_list :
  get_correct_figi e figi_list =
    match find (is_figi_correct e) figi_list with
    | Some figi => figi
    | None => "0"%string
    end.
Proof.
  induction figi_list as [|figi rest IH]; simpl; [done|].
  by destruct (is_figi_correct e figi).
Qed.

(** ** The manager *)

Section ManagerLemmas.

Lemma rule_of_unsupported timeframe :
  ~ supported timeframe -> rule_of timeframe = Tick 86400.
Proof.
  intros H. unfold rule_of, resample_map. cbn [dict_get].
  repeat match goal with
  | |- context [String.eqb ?k timeframe] =>
      destruct (String.eqb_spec k timeframe) as [E|_];
        [exfalso; apply H; unfold supported; rewrite <- E; simpl; tauto|]
  end.
  done.
Qed.

Lemma missing_ranges_nil st start_date end_date lo hi :
  extent (persisted_rows st) lo hi ->
  get_missing_date_ranges st start_date end_date = [] <->
  lo <= start_date /\ end_date <= hi.
Proof.
  intros Hext. rewrite (missing_ranges_of_extent _ _ _ _ _ Hext).
  destruct (start_date <? lo) eqn:A, (hi <? end_date) eqn:B; simpl;
    try apply Z.ltb_lt in A; try apply Z.ltb_ge in A;
    try apply Z.ltb_lt in B; try apply Z.ltb_ge in B;
    (split; [try done; intros _; lia|intros [? ?]; try done; lia]).
Qed.

Lemma get_data_halves fuel e ticker start_date end_date timeframe force w :
  get_data fuel e ticker start_date end_date timeframe force w =
    convert timeframe (obtain fuel e ticker start_date end_date force w).
Proof. reflexivity. Qed.

Lemma get_data_timeframe fuel e ticker start_date end_date timeframe force w data w' :
  get_data fuel e ticker start_date end_date "1min" force w
    = Some (Some (Minute data), w') ->
  get_data fuel e ticker start_date end_date timeframe force w =
    if negb (String.eqb timeframe "1min") && (0 <? length data)%nat
    then Some (Some (Resampled (resample_ohlcv data timeframe)), w')
    else Some (Some (Minute data), w').
Proof.
  rewrite !get_data_halves.
  destruct (obtain fuel e ticker start_date end_date force w) as [[[d|] w1]|];
    simpl; [|done..].
  intros E. by inversion E; subst.
Qed.

Lemma collect_lookup_notin l : forall (results : gmap string (option frame)) t,
  ~ In t (map snd l) -> collect l results !! t = results !! t.
Proof.
  induction l as [|[o t'] rest IH]; intros results t Hn; simpl; [done|].
  simpl in Hn.
  destruct o; rewrite IH by tauto; apply lookup_insert_ne; tauto.
Qed.

Lemma collect_lookup_last l1 o t l2 (results : gmap string (option frame)) :
  ~ In t (map snd l2) ->
  collect (l1 ++ (o, t) :: l2) results !! t =
    Some (match o with Returned data => data | Raised _ => None end).
Proof.
  revert results. induction l1 as [|[o' t'] rest IH]; intros results Hn; simpl.
  - destruct o; rewrite collect_lookup_notin by done; apply lookup_insert_eq.
  - destruct o'; by apply IH.
Qed.

Lemma collect_is_Some l : forall (results : gmap string (option frame)) t,
  is_Some (collect l results !! t) <-> is_Some (results !! t) \/ In t (map snd l).
Proof.
  induction l as [|[o t'] rest IH]; intros results t; simpl; [tauto|].
  destruct o; rewrite IH, lookup_insert_is_Some; 
    destruct (decide (t' = t)); subst; intuition.
Qed.

Lemma imap_futures (g : nat -> string -> outcome * string) tickers :
  (forall i t, snd (g i t) = t) -> map snd (imap g tickers) = tickers.
Proof.
  revert g. induction tickers as [|t rest IH]; intros g Hg; simpl; [done|].
  rewrite Hg. f_equal. apply IH. intros i t'. apply Hg.
Qed.

End ManagerLemmas.

(** * The claims *)

Import Sample.

Lemma st_gap_extent : extent (persisted_rows st_gap) jan10 jun30.
Proof.
  split; [exists first_bar; split; [by left|done]|].
  split; [exists last_bar; split; [by (right; left)|done]|].
  intros b [<-|[<-|[]]]; by vm_compute.
Qed.

(** C1. [get_missing_date_ranges] returns the whole request when no row
    is persisted; otherwise, with [lo] and [hi] the earliest and latest
    persisted dates, it returns [(start, lo)] exactly when [start < lo],
    followed by [(hi, end)] exactly when [end > hi], so at most two
    ranges; for the extent 2023-01-10 .. 2023-06-30 and the request
    2023-01-01 .. 2023-12-31 these are (01-01, 01-10) and (06-30, 12-31). *)
Theorem missing_ranges_spec st start_date end_date :
  (persisted_rows st = [] ->
     get_missing_date_ranges st start_date end_date = [(start_date, end_date)]) /\
  (forall lo hi, extent (persisted_rows st) lo hi ->
     get_missing_date_ranges st start_date end_date =
       (if start_date <? lo then [(start_date, lo)] else []) ++
       (if hi <? end_date then [(hi, end_date)] else []) /\
     (length (get_missing_date_ranges st start_date end_date) <= 2)%nat) /\
  (extent (persisted_rows st)
          (Calendar.to_datetime 2023 1 10) (Calendar.to_datetime 2023 6 30) ->
     get_missing_date_ranges st
       (Calendar.to_datetime 2023 1 1) (Calendar.to_datetime 2023 12 31) =
       [ (Calendar.to_datetime 2023 1 1, Calendar.to_datetime 2023 1 10);
         (Calendar.to_datetime 2023 6 30, Calendar.to_datetime 2023 12 31) ]).
Proof.
  split; [|split].
  - intros E. unfold get_missing_date_ranges.
    rewrite load_processed_data_rows, E. by destruct (processed_dir st).
  - intros lo hi Hext. rewrite (missing_ranges_of_extent _ _ _ _ _ Hext).
    split; [done|]. destruct (start_date <? lo), (hi <? end_date); simpl; lia.
  - intros Hext. by rewrite (missing_ranges_of_extent _ _ _ _ _ Hext).
Qed.

Lemma missing_ranges_spec_witness :
  extent (persisted_rows st_gap) jan10 jun30 /\
  get_missing_date_ranges st_gap jan01 dec31 = [(jan01, jan10); (jun30, dec31)].
Proof.
  split; [exact st_gap_extent|].
  exact (proj2 (proj2 (missing_ranges_spec st_gap 0 0)) st_gap_extent).
Defined.

(** C2, as stated, fails: a fresh download does not replace the rows
    of the existing series on merge, and of two fragments with a row of
    the same timestamp the one listed first wins on load, whenever they
    were written. *)
Lemma last_write_does_not_win :
  ~ last_write_wins_on_merge /\ ~ load_ignores_listing_order.
Proof.
  split.
  - intros H.
    specialize (H [first_bar] [first_bar_again] first_bar_again).
    assert (In first_bar_again (merge [first_bar] [first_bar_again])) as Hin.
    { apply H. exists [], []. split; [done|]. by intros ? []. }
    vm_compute in Hin. destruct Hin as [E|[]]. discriminate E.
  - intros H.
    specialize (H [] [(Span 0 0, [first_bar]); (Span 0 1, [first_bar_again])]
                     [(Span 0 1, [first_bar_again]); (Span 0 0, [first_bar])]
                     (perm_swap _ _ _)).
    vm_compute in H. discriminate H.
Qed.

(** C2, amended. [load_processed_data] returns [None] when the directory
    has no fragment; otherwise it returns the rows that are the first of
    their date in the concatenation of the fragments in listing order, in
    strictly ascending date order.  The merge of a download into the
    existing series keeps, in the same way, the first row of each date of
    [existing_data ++ new_data]: an existing row wins over a fetched one. *)
Theorem load_first_occurrence_wins st :
  (processed_dir st = [] -> load_processed_data st = None) /\
  (processed_dir st <> [] ->
     exists df, load_processed_data st = Some df /\
       strictly_ascending df /\
       forall b, In b df <-> first_occurrence b (persisted_rows st)) /\
  (forall existing_data new_data,
     strictly_ascending (merge existing_data new_data) /\
     (forall b, In b (merge existing_data new_data) <->
                first_occurrence b (existing_data ++ new_data)) /\
     (forall b, first_occurrence b existing_data ->
                In b (merge existing_data new_data))).
Proof.
  split; [|split].
  - intros E. by rewrite load_processed_data_rows, E.
  - intros Hne. rewrite load_processed_data_rows.
    destruct (processed_dir st) eqn:E; [done|].
    eexists. split; [done|]. split; [apply normal_form_strict|].
    intros b. rewrite sort_values_In. apply drop_duplicates_In.
  - intros existing_data new_data.
    assert (forall b, In b (merge existing_data new_data) <->
                      first_occurrence b (existing_data ++ new_data)) as Hm.
    { intros b. unfold merge, concat_frames. simpl. rewrite app_nil_r.
      rewrite sort_values_In. apply drop_duplicates_In. }
    split; [apply normal_form_strict|]. split; [done|].
    intros b (l1 & l2 & -> & Hl1). apply Hm.
    exists l1, (l2 ++ new_data). split; [|done].
    by rewrite <- app_assoc.
Qed.

Lemma load_first_occurrence_wins_witness :
  processed_dir st_gap <> [] /\
  exists df, load_processed_data st_gap = Some df /\
    strictly_ascending df /\
    forall b, In b df <-> first_occurrence b (persisted_rows st_gap).
Proof.
  assert (processed_dir st_gap <> []) as H by by vm_compute.
  split; [exact H|].
  exact (proj1 (proj2 (load_first_occurrence_wins st_gap)) H).
Defined.



Lemma sample_bars_ascending : ascending [b0900; b0901; b0904].
Proof. unfold ascending. repeat constructor; by vm_compute. Qed.



(** C4, as stated, fails: between 09:00 and 09:10 the 5-minute bucket of
    09:05 has no input bar and still has an output row. *)
Lemma empty_bucket_has_row : ~ no_row_for_empty_bucket.
Proof.
  intros H.
  destruct (H [b0900; b0910] "5min"%string
              (empty_row (Calendar.at_time 2023 1 10 9 5)))
    as (b & Hb & E).
  - by left.
  - unfold ascending. repeat constructor; by vm_compute.
  - vm_compute. right. by left.
  - destruct Hb as [<-|[<-|[]]]; vm_compute in E; discriminate E.
Qed.

(** C4, amended. For a frame in date order and a timeframe of
    [resample_map], the output has one row for every bucket from the
    bucket of the earliest bar to the bucket of the latest bar, in
    strictly ascending order of the bucket labels; the row of a bucket
    without input bars has no prices and volume 0 (nothing is filled
    forward), and every row is the row of a bucket of that range. *)
Theorem resample_covers_bucket_range df timeframe lo hi :
  supported timeframe -> ascending df -> extent df lo hi ->
  let r := rule_of timeframe in
  let out := resample_ohlcv df timeframe in
  StronglySorted (fun a b => r_date a < r_date b) out /\
  map r_date out =
    map (bin_label r)
        (seqZ (bin_index r lo) (bin_index r hi - bin_index r lo + 1)) /\
  (forall i, bin_index r lo <= i <= bin_index r hi ->
     bin_rows r i df = [] -> In (empty_row (bin_label r i)) out) /\
  (forall rw, In rw out ->
     exists i, bin_index r lo <= i <= bin_index r hi /\
               r_date rw = bin_label r i /\
               (bin_rows r i df = [] -> rw = empty_row (bin_label r i)) /\
               (bin_rows r i df <> [] -> aggregates rw (bin_rows r i df))).
Proof.
  intros Hsup Hs Hext r out.
  pose proof (rule_of_supported _ Hsup) as Hr. fold r in Hr.
  pose proof (extent_nonempty _ _ _ Hext) as Hne.
  destruct (extent_unique _ _ _ _ _ Hext (date_extent df Hne)) as [-> ->].
  unfold out. rewrite (resample_ohlcv_rule _ _ Hne). fold r.
  split; [by apply resample_sorted|]. split; [by apply resample_dates|]. split.
  - intros i Hi E. apply resample_rows; [done|]. exists i. split; [done|].
    by rewrite E.
  - intros rw Hrw. apply resample_rows in Hrw as (i & Hi & ->); [|done].
    exists i. split; [done|]. split; [done|]. split.
    + by intros ->.
    + apply agg_aggregates.
Qed.

Lemma sparse_bars_extent :
  extent [b0900; b0910] (Calendar.at_time 2023 1 10 9 0) (Calendar.at_time 2023 1 10 9 10).
Proof.
  split; [exists b0900; split; [by left|done]|].
  split; [exists b0910; split; [by (right; left)|done]|].
  intros b [<-|[<-|[]]]; by vm_compute.
Qed.

Lemma resample_covers_bucket_range_witness :
  supported "5min" /\ ascending [b0900; b0910] /\
  map r_date (resample_ohlcv [b0900; b0910] "5min") =
    [ Calendar.at_time 2023 1 10 9 0; Calendar.at_time 2023 1 10 9 5;
      Calendar.at_time 2023 1 10 9 10 ].
Proof.
  assert (supported "5min") as Hsup by (by left).
  assert (ascending [b0900; b0910]) as Hs
    by (unfold ascending; repeat constructor; by vm_compute).
  split; [exact Hsup|]. split; [exact Hs|].
  exact (eq_trans
    (proj1 (proj2 (resample_covers_bucket_range [b0900; b0910] "5min" _ _
                     Hsup Hs sparse_bars_extent)))
    eq_refl).
Defined.






Lemma e_unknown_free : no_rate_limit e_unknown.
Proof. by intros n figi year. Qed.




(** C9. The result of [get_data_for_multiple_tickers] has an entry for
    exactly the requested tickers; the entry of a ticker is what its
    (last) task returned, or [None] when that task raised; and it does
    not depend on what the tasks of the other tickers did. *)
Theorem batch_isolation executor tickers :
  let results := get_data_for_multiple_tickers executor tickers in
  (forall t, is_Some (results !! t) <-> In t tickers) /\
  (forall i t,
     tickers !! i = Some t ->
     (forall j, (i < j)%nat -> tickers !! j <> Some t) ->
     results !! t =
       Some (match executor i t with Returned data => data | Raised _ => None end)) /\
  (forall executor' i t,
     tickers !! i = Some t ->
     (forall j, (i < j)%nat -> tickers !! j <> Some t) ->
     executor' i t = executor i t ->
     get_data_for_multiple_tickers executor' tickers !! t = results !! t).
Proof.
  assert (forall ex i t,
     tickers !! i = Some t ->
     (forall j, (i < j)%nat -> tickers !! j <> Some t) ->
     get_data_for_multiple_tickers ex tickers !! t =
       Some (match ex i t with Returned data => data | Raised _ => None end)) as Hlast.
  { intros ex i t Hi Hlater. unfold get_data_for_multiple_tickers.
    pose proof (take_drop_middle _ _ _ Hi) as Hsplit.
    assert (length (take i tickers) = i) as Hlen.
    { apply length_take_le. apply lookup_lt_Some in Hi. lia. }
    rewrite <- Hsplit at 1. rewrite imap_app. simpl. rewrite Hlen, Nat.add_0_r.
    apply collect_lookup_last. rewrite imap_futures by done.
    intros Hin. apply list_elem_of_In, list_elem_of_lookup in Hin as [k Hk].
    rewrite lookup_drop in Hk. apply (Hlater (S i + k)%nat); [lia|done]. }
  intros results. split; [|split].
  - intros t. unfold results, get_data_for_multiple_tickers.
    rewrite collect_is_Some, lookup_empty.
    rewrite imap_futures by done.
    split; [intros [[? ?]|?]; done|by right].
  - intros i t. apply Hlast.
  - intros executor' i t Hi Hlater E. unfold results.
    rewrite (Hlast executor' i t Hi Hlater), (Hlast executor i t Hi Hlater).
    by rewrite E.
Qed.

Lemma batch_isolation_witness :
  get_data_for_multiple_tickers
    (fun i t => if String.eqb t "B" then Raised "boom" else Returned (Some (Minute [first_bar])))
    ["A"; "B"; "C"]%string !! "A"%string
  = Some (Some (Minute [first_bar])).
Proof.
  exact (proj1 (proj2 (batch_isolation
    (fun i t => if String.eqb t "B" then Raised "boom" else Returned (Some (Minute [first_bar])))
    ["A"; "B"; "C"]%string)) 0%nat "A"%string eq_refl
    ltac:(intros [|[|[|j]]] Hj; (lia || discriminate))).
Defined.

(** C10. A timeframe that is neither "1min" nor a key of [resample_map],
    "1month" among them, is resampled with the daily rule: whenever
    [get_data] has non-empty minute data, it returns that data resampled
    into calendar days, exactly as for "1d". *)
Theorem unknown_timeframe_is_daily timeframe :
  timeframe <> "1min"%string -> ~ supported timeframe ->
  rule_of timeframe = Tick 86400 /\
  (forall ts, bin_index (rule_of timeframe) ts = Calendar.day_of ts) /\
  (forall df, resample_ohlcv df timeframe = resample_ohlcv df "1d") /\
  (forall fuel e ticker start_date end_date force w data w',
     get_data fuel e ticker start_date end_date "1min" force w
       = Some (Some (Minute data), w') ->
     data <> [] ->
     get_data fuel e ticker start_date end_date timeframe force w
       = Some (Some (Resampled (resample (Tick 86400) data)), w')) /\
  (forall fuel e ticker start_date end_date force w,
     get_data fuel e ticker start_date end_date timeframe force w
     = get_data fuel e ticker start_date end_date "1d" force w).
Proof.
  intros Hmin Hsup. pose proof (rule_of_unsupported _ Hsup) as Hrule.
  assert (forall df, resample_ohlcv df timeframe = resample_ohlcv df "1d") as Hsame.
  { intros df. destruct df as [|b rest]; [done|].
    rewrite !resample_ohlcv_rule by done. by rewrite Hrule. }
  assert (String.eqb timeframe "1min" = false) as Heqb
    by by apply String.eqb_neq.
  split; [done|]. split; [by rewrite Hrule|]. split; [done|]. split.
  - intros fuel e ticker start_date end_date force w data w' E Hne.
    rewrite (get_data_timeframe _ _ _ _ _ _ _ _ _ _ E), Heqb.
    destruct data; [done|]. simpl. do 3 f_equal.
    rewrite resample_ohlcv_rule by done. by rewrite Hrule.
  - intros fuel e ticker start_date end_date force w.
    rewrite !get_data_halves. unfold convert.
    destruct (obtain _ _ _ _ _ _ _) as [[[d|] w1]|]; [|done..].
    by rewrite Heqb, Hsame.
Qed.

Lemma unknown_timeframe_is_daily_witness :
  rule_of "1month" = Tick 86400 /\
  get_data 1 e_known "SBER" jan01 dec31 "1month" false w0
  = get_data 1 e_known "SBER" jan01 dec31 "1d" false w0.
Proof.
  assert ("1month"%string <> "1min"%string) as Hmin by discriminate.
  assert (~ supported "1month") as Hsup.
  { intros [E|[E|[E|[E|[E|[E|[]]]]]]]; discriminate E. }
  destruct (unknown_timeframe_is_daily "1month" Hmin Hsup) as (Hr & _ & _ & _ & Hg).
  split; [exact Hr|]. exact (Hg 1%nat e_known "SBER"%string jan01 dec31 false w0).
Defined.

(** * Further properties *)

(** ** Files *)

Section FileLemmas.

Context {K V : Type} (eqb : K -> K -> bool).
Hypothesis eqb_eq : forall a b, eqb a b = true <-> a = b.

Lemma eqb_refl_true k : eqb k k = true.
Proof. by apply eqb_eq. Qed.

Lemma eqb_neq_false a b : a <> b -> eqb a b = false.
Proof. intros H. destruct (eqb a b) eqn:E; [|done]. by apply eqb_eq in E. Qed.

Lemma read_write_same k (v : V) dir :
  read_file eqb k (write_file eqb k v dir) = Some v.
Proof.
  unfold read_file. induction dir as [|[k' v'] rest IH]; simpl.
  - by rewrite eqb_refl_true.
  - destruct (eqb k k') eqn:E; simpl; [by rewrite eqb_refl_true|].
    by rewrite E.
Qed.

Lemma read_write_other k k' (v : V) dir :
  k' <> k -> read_file eqb k' (write_file eqb k v dir) = read_file eqb k' dir.
Proof.
  intros Hne. unfold read_file. induction dir as [|[k0 v0] rest IH]; simpl.
  - by rewrite (eqb_neq_false k' k).
  - destruct (eqb k k0) eqn:E; simpl.
    + apply eqb_eq in E as <-. by rewrite (eqb_neq_false k' k).
    + destruct (eqb k' k0); [done|exact IH].
Qed.

Lemma write_write k (v1 v2 : V) dir :
  write_file eqb k v2 (write_file eqb k v1 dir) = write_file eqb k v2 dir.
Proof.
  induction dir as [|[k' v'] rest IH]; simpl.
  - by rewrite eqb_refl_true.
  - destruct (eqb k k') eqn:E; simpl; [by rewrite eqb_refl_true|].
    by rewrite E, IH.
Qed.

Lemma write_file_length k (v : V) dir :
  length (write_file eqb k v dir) =
    match read_file eqb k dir with
    | Some _ => length dir
    | None => S (length dir)
    end.
Proof.
  unfold read_file. induction dir as [|[k' v'] rest IH]; simpl; [done|].
  destruct (eqb k k') eqn:E; simpl; [done|]. rewrite IH.
  by destruct (find _ rest).
Qed.

Lemma write_file_In k (v : V) dir : In (k, v) (write_file eqb k v dir).
Proof.
  induction dir as [|[k' v'] rest IH]; simpl; [by left|].
  destruct (eqb k k'); [by left|by right].
Qed.

Lemma write_file_keeps k (v : V) k' v' dir :
  k' <> k -> In (k', v') dir -> In (k', v') (write_file eqb k v dir).
Proof.
  intros Hne. induction dir as [|[k0 v0] rest IH]; simpl; [done|].
  intros [E|Hin].
  - inversion E; subst. rewrite (eqb_neq_false k k') by done. by left.
  - destruct (eqb k k0); right; [done|by apply IH].
Qed.

End FileLemmas.

Lemma raw_name_eqb_eq a b : raw_name_eqb a b = true <-> a = b.
Proof.
  destruct a as [f y], b as [f' y']. unfold raw_name_eqb. simpl.
  rewrite andb_true_iff, String.eqb_eq, Z.eqb_eq. split; [by intros [-> ->]|].
  intros E. by inversion E.
Qed.

Lemma file_name_eqb_eq a b : file_name_eqb a b = true <-> a = b.
Proof.
  destruct a as [s1 e1|], b as [s2 e2|]; simpl; try (split; done).
  rewrite andb_true_iff, !Z.eqb_eq. split; [by intros [-> ->]|].
  intros E. by inversion E.
Qed.

Lemma processed_after_save data st :
  processed_dir (snd (save_processed_data data st)) =
    write_file file_name_eqb (fragment_name data) data (processed_dir st).
Proof. reflexivity. Qed.

(** X1. [store_raw_data] writes the archive under the name of its
    identifier and year: reading that name gives the new content, every
    other archive reads as before, an archive already stored under the
    name is replaced (the listing keeps its length), and the processed
    directory is not touched. *)
Theorem store_raw_data_overwrites figi year content st :
  let st' := snd (store_raw_data figi year content st) in
  read_raw st' (figi, year) = Some content /\
  (forall name, name <> (figi, year) -> read_raw st' name = read_raw st name) /\
  (read_raw st (figi, year) <> None ->
     length (raw_dir st') = length (raw_dir st)) /\
  (read_raw st (figi, year) = None ->
     length (raw_dir st') = S (length (raw_dir st))) /\
  processed_dir st' = processed_dir st.
Proof.
  simpl. unfold read_raw. simpl.
  split; [apply read_write_same, raw_name_eqb_eq|].
  split; [intros name Hne; by apply read_write_other; [apply raw_name_eqb_eq|]|].
  rewrite write_file_length.
  split; [|split; [|done]]; intros H.
  - by destruct (read_file raw_name_eqb (figi, year) (raw_dir st)).
  - by rewrite H.
Qed.

Lemma store_raw_data_overwrites_witness :
  read_raw (store w_raw) ("BBG004730N88"%string, 2023) <> None /\
  length (raw_dir (snd (store_raw_data "BBG004730N88" 2023 None (store w_raw))))
  = length (raw_dir (store w_raw)).
Proof.
  assert (read_raw (store w_raw) ("BBG004730N88"%string, 2023) <> None) as H
    by discriminate.
  split; [exact H|].
  exact (proj1 (proj2 (proj2
    (store_raw_data_overwrites "BBG004730N88" 2023 None (store w_raw)))) H).
Defined.

(** X2. [save_processed_data] names the fragment after the first and
    the last day of the frame only: the saved frame can be read back
    under that name, fragments of other names are kept, and saving a
    second non-empty frame with the same first and last day replaces the
    first one, whose rows are gone from the directory. *)
Theorem save_processed_data_by_span data st :
  let st' := snd (save_processed_data data st) in
  read_processed st' (fragment_name data) = Some data /\
  (forall name, name <> fragment_name data ->
     read_processed st' name = read_processed st name) /\
  raw_dir st' = raw_dir st /\
  (forall data',
     data <> [] -> data' <> [] ->
     Calendar.day_of (date_min data') = Calendar.day_of (date_min data) ->
     Calendar.day_of (date_max data') = Calendar.day_of (date_max data) ->
     snd (save_processed_data data' st') = snd (save_processed_data data' st)).
Proof.
  cbv zeta. unfold read_processed. rewrite processed_after_save.
  split; [apply read_write_same, file_name_eqb_eq|].
  split; [intros name Hne; by apply read_write_other; [apply file_name_eqb_eq|]|].
  split; [done|].
  intros data' Hne Hne' Emin Emax.
  assert (fragment_name data' = fragment_name data) as Ename.
  { unfold fragment_name, save_processed_data. simpl.
    destruct data, data'; try done. simpl Nat.ltb. cbv iota.
    by rewrite Emin, Emax. }
  unfold save_processed_data at 1 3. simpl. f_equal.
  change (write_file file_name_eqb (fragment_name data') data'
            (write_file file_name_eqb (fragment_name data) data (processed_dir st))
          = write_file file_name_eqb (fragment_name data') data' (processed_dir st)).
  rewrite Ename. apply write_write, file_name_eqb_eq.
Qed.

Lemma save_processed_data_by_span_witness :
  snd (save_processed_data [first_bar_again; last_bar]
         (snd (save_processed_data [first_bar; last_bar] empty_storage)))
  = snd (save_processed_data [first_bar_again; last_bar] empty_storage).
Proof.
  exact (proj2 (proj2 (proj2
    (save_processed_data_by_span [first_bar; last_bar] empty_storage)))
    [first_bar_again; last_bar] ltac:(discriminate) ltac:(discriminate)
    eq_refl eq_refl).
Defined.

Lemma persisted_rows_In st name rows b :
  In (name, rows) (processed_dir st) -> In b rows -> In b (persisted_rows st).
Proof.
  intros Hf Hb. unfold persisted_rows. apply in_concat. exists rows.
  split; [|done]. apply in_map_iff. by exists (name, rows).
Qed.

(** X3. After [save_processed_data], whatever the store held and even
    for an empty frame, [load_processed_data] returns a frame, and that
    frame has a row for every timestamp of the saved frame and for every
    timestamp of the fragments kept under other names. *)
Theorem load_after_save data st :
  exists df,
    load_processed_data (snd (save_processed_data data st)) = Some df /\
    (forall t, In t (map date data) -> In t (map date df)) /\
    (forall name rows t,
       In (name, rows) (processed_dir st) -> name <> fragment_name data ->
       In t (map date rows) -> In t (map date df)).
Proof.
  set (st' := snd (save_processed_data data st)).
  assert (In (fragment_name data, data) (processed_dir st')) as Hnew.
  { unfold st'. rewrite processed_after_save. apply write_file_In. }
  rewrite load_processed_data_rows.
  destruct (processed_dir st') eqn:E; [done|]. rewrite <- E in Hnew.
  eexists. split; [done|].
  assert (forall name rows t, In (name, rows) (processed_dir st') ->
            In t (map date rows) ->
            In t (map date (sort_values (drop_duplicates (persisted_rows st')))))
    as Hin.
  { intros name rows t Hf Ht. apply normal_form_dates.
    apply in_map_iff in Ht as (b & <- & Hb). apply in_map_iff. exists b.
    split; [done|]. by eapply persisted_rows_In. }
  split; [intros t; by apply Hin with (fragment_name data)|].
  intros name rows t Hf Hne. apply Hin with name.
  unfold st'. rewrite processed_after_save.
  by apply write_file_keeps; [apply file_name_eqb_eq|..].
Qed.

Lemma load_after_save_witness :
  exists df,
    load_processed_data (snd (save_processed_data [first_bar_again] st_gap)) = Some df /\
    In jan10 (map date df) /\ In jun30 (map date df).
Proof.
  destruct (load_after_save [first_bar_again] st_gap) as (df & E & Hnew & Hold).
  exists df. split; [exact E|]. split.
  - apply Hnew. by left.
  - apply (Hold (Span 19367 19538) [first_bar; last_bar] jun30).
    + by left.
    + discriminate.
    + right. by left.
Defined.

Lemma readable_frames_nil csv_files :
  readable_frames csv_files = [] <-> forall f, In f csv_files -> f = None.
Proof.
  induction csv_files as [|[df|] rest IH]; simpl.
  - split; [by intros _ ? []|done].
  - split; [done|]. intros H. by specialize (H (Some df) (or_introl eq_refl)).
  - rewrite IH. split.
    + intros H f [<-|Hf]; [done|by apply H].
    + intros H f Hf. apply H. by right.
Qed.



(** X5. [get_missing_date_ranges] looks at the earliest and the latest
    persisted date only: two stores with the same extent get the same
    answer, whatever lies between (a gap inside is not reported), and every
    range it reports is non-empty and ends at the earliest date or starts
    at the latest one. *)
Theorem missing_ranges_boundary_only st st' start_date end_date lo hi :
  extent (persisted_rows st) lo hi ->
  extent (persisted_rows st') lo hi ->
  get_missing_date_ranges st start_date end_date =
    get_missing_date_ranges st' start_date end_date /\
  forall a b, In (a, b) (get_missing_date_ranges st start_date end_date) ->
    a < b /\ ((a = start_date /\ b = lo) \/ (a = hi /\ b = end_date)).
Proof.
  intros H H'.
  rewrite (missing_ranges_of_extent _ _ _ _ _ H), (missing_ranges_of_extent _ _ _ _ _ H').
  split; [done|]. intros a b Hin. apply in_app_iff in Hin as [Hin|Hin].
  - destruct (start_date <? lo) eqn:E; [|done]. apply Z.ltb_lt in E.
    destruct Hin as [Hin|[]]. inversion Hin; subst. split; [done|by left].
  - destruct (hi <? end_date) eqn:E; [|done]. apply Z.ltb_lt in E.
    destruct Hin as [Hin|[]]. inversion Hin; subst. split; [done|by right].
Qed.

Lemma missing_ranges_boundary_only_witness :
  get_missing_date_ranges st_gap jan01 dec31 =
  get_missing_date_ranges
    (Storage [] [(Span 0 0, [last_bar]); (Empty, []); (Span 1 1, [first_bar])])
    jan01 dec31.
Proof.
  refine (proj1 (missing_ranges_boundary_only st_gap _ jan01 dec31 jan10 jun30
                   st_gap_extent _)).
  split; [exists first_bar; split; [right; left; reflexivity|reflexivity]|].
  split; [exists last_bar; split; [left; reflexivity|reflexivity]|].
  intros b [<-|[<-|[]]]; vm_compute; split; discriminate.
Defined.

(** ** Identifiers *)

Lemma prefix_app (n h : string) :
  String.prefix n h = true <-> exists post, h = (n ++ post)%string.
Proof.
  revert h. induction n as [|a n IH]; intros h; simpl.
  - split; [intros _; by exists h|by destruct h].
  - destruct h as [|b h]; simpl; [split; [done|by intros [? ?]]|].
    destruct (Ascii.ascii_dec a b) as [->|Hne].
    + rewrite IH. split; intros [post E]; exists post; [by rewrite E|].
      by inversion E.
    + split; [done|]. intros [post E]. by inversion E.
Qed.

Lemma contains_spec (n h : string) :
  contains n h = true <-> exists pre post, h = (pre ++ n ++ post)%string.
Proof.
  induction h as [|c h IH].
  - change (contains n "") with (String.prefix n "" || false).
    rewrite orb_false_r, prefix_app. split.
    + intros [post E]. by exists ""%string, post.
    + intros (pre & post & E). destruct pre; [by exists post|done].
  - change (contains n (String c h))
      with (String.prefix n (String c h) || contains n h).
    rewrite orb_true_iff, prefix_app, IH. split.
    + intros [[post E]|(pre & post & E)].
      * by exists ""%string, post.
      * exists (String c pre), post. simpl. by rewrite E.
    + intros (pre & post & E). destruct pre as [|c' pre].
      * left. by exists post.
      * right. simpl in E. inversion E. by exists pre, post.
Qed.

(** X6. [is_figi_correct] accepts an identifier exactly when [figi.txt]
    exists and the identifier occurs somewhere inside one of its lines:
    a fragment of a listed identifier, and the empty string as soon as the
    file has a line, are accepted too.  Without the file nothing is
    accepted and [get_correct_figi] answers "0". *)
Theorem is_figi_correct_substring e figi :
  (is_figi_correct e figi = true <->
     exists lines line pre post,
       figi_txt e = Some lines /\ In line lines /\
       line = (pre ++ figi ++ post)%string) /\
  (figi_txt e = None -> forall figi_list, get_correct_figi e figi_list = "0"%string).
Proof.
  split.
  - unfold is_figi_correct. destruct (figi_txt e) as [lines|].
    + rewrite existsb_exists. split.
      * intros (line & Hl & Hc). apply contains_spec in Hc as (pre & post & E).
        by exists lines, line, pre, post.
      * intros (lines' & line & pre & post & E & Hl & Hline).
        inversion E; subst lines'. exists line. split; [done|].
        apply contains_spec. by exists pre, post.
    + split; [done|]. by intros (? & ? & ? & ? & ? & _).
  - intros E figi_list. induction figi_list as [|f rest IH]; simpl; [done|].
    unfold is_figi_correct. by rewrite E.
Qed.

Lemma is_figi_correct_substring_witness :
  is_figi_correct e_known "BBG0047" = true /\
  get_correct_figi e_unknown ["BBG004730N88"%string] = "0"%string.
Proof.
  split.
  - apply (proj1 (is_figi_correct_substring e_known "BBG0047")).
    exists ["BBG004730N88"%string], "BBG004730N88"%string, ""%string, "30N88"%string.
    split; [reflexivity|]. split; [left; reflexivity|reflexivity].
  - exact (proj2 (is_figi_correct_substring e_unknown ""%string) eq_refl _).
Defined.

(** ** Downloads, further *)

Lemma download_year_effect e figi year fuel : forall w r w',
  _download_year_data fuel e figi year w = Some (r, w') ->
  exists k,
    requests w' = requests w ++ repeat (figi, year) (S k) /\
    slept w' = slept w + 5 * Z.of_nat k /\
    (forall j, (j < k)%nat ->
       rate_limited (provider e (length (requests w) + j) figi year) = true) /\
    match r with
    | Some file_path =>
        file_path = (figi, year) /\
        exists content,
          provider e (length (requests w) + k) figi year = Response 200 content /\
          store w' = snd (store_raw_data figi year content (store w))
    | None =>
        store w' = store w /\
        yields_data (provider e (length (requests w) + k) figi year) = false /\
        rate_limited (provider e (length (requests w) + k) figi year) = false
    end.
Proof.
  induction fuel as [|fuel IH]; intros w r w' H; simpl in H; [done|].
  destruct (provider e (length (requests w)) figi year) as [c content|] eqn:Ep.
  - destruct (c =? 200) eqn:E200.
    + apply Z.eqb_eq in E200 as ->. inversion H; subst r w'. clear H.
      exists O. simpl. rewrite Nat.add_0_r, Ep.
      split; [done|]. split; [lia|]. split; [intros; lia|]. split; [done|].
      by exists content.
    + destruct (c =? 429) eqn:E429.
      * apply IH in H as (k & Hreq & Hsl & Hlim & Hr). simpl in *.
        rewrite length_app in Hlim, Hr. simpl in Hlim, Hr.
        exists (S k). split; [by rewrite Hreq, <- app_assoc|]. split; [lia|].
        split.
        -- intros [|j] Hj.
           ++ by rewrite Nat.add_0_r, Ep; simpl; rewrite E429.
           ++ replace (length (requests w) + S j)%nat
                with (length (requests w) + 1 + j)%nat by lia.
              apply Hlim. lia.
        -- replace (length (requests w) + S k)%nat
             with (length (requests w) + 1 + k)%nat by lia.
           done.
      * assert (r = None /\ w' = World (store w) (requests w ++ [(figi, year)]) (slept w))
          as [-> ->] by (destruct (c =? 404); by inversion H).
        exists O. simpl. rewrite Nat.add_0_r, Ep. simpl. rewrite E200, E429.
        split; [done|]. split; [lia|]. split; [intros; lia|done].
  - inversion H; subst r w'. exists O. simpl. rewrite Nat.add_0_r, Ep.
    split; [done|]. split; [lia|]. split; [intros; lia|done].
Qed.

Lemma download_year_processed e figi year fuel w r w' :
  _download_year_data fuel e figi year w = Some (r, w') ->
  processed_dir (store w') = processed_dir (store w).
Proof.
  intros H. apply download_year_effect in H as (k & _ & _ & _ & Hr).
  destruct r as [p|].
  - destruct Hr as (_ & content & _ & ->). done.
  - by destruct Hr as (-> & _).
Qed.

Lemma download_years_processed e figi fuel years : forall files w files' w',
  download_years fuel e figi years files w = Some (files', w') ->
  processed_dir (store w') = processed_dir (store w).
Proof.
  induction years as [|year rest IH]; intros files w files' w' H; simpl in H.
  - by inversion H.
  - destruct (_download_year_data fuel e figi year w) as [[[p|] w1]|] eqn:E;
      [| |done]; apply IH in H; rewrite H; by eapply download_year_processed.
Qed.

Lemma download_ids_processed e fuel years ids : forall files w files' w',
  download_ids fuel e ids years files w = Some (files', w') ->
  processed_dir (store w') = processed_dir (store w).
Proof.
  induction ids as [|id rest IH]; intros files w files' w' H; simpl in H.
  - by inversion H.
  - destruct (download_years fuel e id years files w) as [[files1 w1]|] eqn:E;
      [|done]. apply IH in H. rewrite H. by eapply download_years_processed.
Qed.

Lemma download_lists_processed e fuel years lists : forall files w files' w',
  download_lists fuel e lists years files w = Some (files', w') ->
  processed_dir (store w') = processed_dir (store w).
Proof.
  induction lists as [|ids rest IH]; intros files w files' w' H; simpl in H.
  - by inversion H.
  - destruct (download_ids fuel e ids years files w) as [[files1 w1]|] eqn:E;
      [|done]. apply IH in H. rewrite H. by eapply download_ids_processed.
Qed.

Lemma between_In lo hi df b :
  In b (between lo hi df) <-> In b df /\ lo <= date b <= hi.
Proof.
  unfold between. rewrite filter_In, andb_true_iff, !Z.leb_le. tauto.
Qed.

Lemma filter_strictly_ascending (p : bar -> bool) df :
  strictly_ascending df -> strictly_ascending (List.filter p df).
Proof.
  unfold strictly_ascending. induction 1 as [|c rest Hs IH Hc]; simpl; [constructor|].
  destruct (p c); [|done]. constructor; [done|].
  rewrite List.Forall_forall in *. intros d Hd.
  apply filter_In in Hd as [Hd _]. by apply Hc.
Qed.

Lemma download_for_ticker_data fuel e ticker start_date end_date w r w' :
  download_for_ticker fuel e ticker start_date end_date w = Some (r, w') ->
  match r with
  | Some data =>
      ascending data /\
      (forall b, In b data -> start_date <= date b <= end_date) /\
      processed_dir (store w') =
        write_file file_name_eqb (fragment_name data) data (processed_dir (store w))
  | None => processed_dir (store w') = processed_dir (store w)
  end.
Proof.
  unfold download_for_ticker.
  set (fetched := if negb _ then _ else _).
  assert (forall files w1, fetched = Some (files, w1) ->
            processed_dir (store w1) = processed_dir (store w)) as Hkeep.
  { intros files w1. unfold fetched. destruct (negb _).
    - apply download_years_processed.
    - apply download_lists_processed. }
  destruct fetched as [[files w1]|]; [|done].
  specialize (Hkeep files w1 eq_refl).
  destruct (load_raw_csv_files (extract_raw_data (store w1))) as [data|] eqn:El.
  - intros H. inversion H; subst r w'. clear H. simpl.
    assert (ascending data) as Hs.
    { unfold load_raw_csv_files in El.
      destruct (flat_map _ _); [done|]. inversion El. apply sort_values_ascending. }
    split; [by apply filter_ascending|].
    split; [intros b Hb; by apply between_In in Hb as [_ ?]|].
    by rewrite <- Hkeep.
  - intros H. by inversion H; subst.
Qed.



(** X8. When [download_for_ticker] returns a frame, its rows are in
    date order and all lie within the requested dates, bounds included,
    and the frame has been written to the processed directory under the
    name of its span, the other fragments being kept; when it returns
    [None], the processed directory is as before. *)
Theorem download_for_ticker_result fuel e ticker start_date end_date w r w' :
  download_for_ticker fuel e ticker start_date end_date w = Some (r, w') ->
  match r with
  | Some data =>
      ascending data /\
      (forall b, In b data -> start_date <= date b <= end_date) /\
      read_processed (store w') (fragment_name data) = Some data /\
      (forall name, name <> fragment_name data ->
         read_processed (store w') name = read_processed (store w) name)
  | None => processed_dir (store w') = processed_dir (store w)
  end.
Proof.
  intros H. apply download_for_ticker_data in H. destruct r as [data|]; [|done].
  destruct H as (Hs & Hin & Hp). split; [done|]. split; [done|].
  unfold read_processed. rewrite Hp.
  split; [apply read_write_same, file_name_eqb_eq|].
  intros name Hne. by apply read_write_other; [apply file_name_eqb_eq|].
Qed.

Lemma download_for_ticker_result_witness :
  exists data w',
    download_for_ticker 1 e_known "SBER" jan01 dec31 w0 = Some (Some data, w') /\
    ascending data /\
    read_processed (store w') (fragment_name data) = Some data.
Proof.
  destruct (download_for_ticker 1 e_known "SBER" jan01 dec31 w0)
    as [[[data|] w']|] eqn:E; [|vm_compute in E; discriminate E..].
  destruct (download_for_ticker_result 1 e_known "SBER" jan01 dec31 w0 _ _ E)
    as (Hs & _ & Hr & _).
  exists data, w'. split; [reflexivity|]. split; [exact Hs|exact Hr].
Defined.

Lemma ticker_rows_nil e ticker :
  (forall i, In i (df_screener_all e) -> ins_ticker i = ticker ->
             ins_currency i <> "rub"%string) ->
  ticker_rows e ticker = [].
Proof.
  intros H. unfold ticker_rows, df_screener_rub.
  destruct (List.filter _ (List.filter _ _)) as [|i rest] eqn:E; [done|].
  assert (In i (i :: rest)) as Hi by by left. rewrite <- E in Hi.
  apply filter_In in Hi as [Hi Ht]. apply filter_In in Hi as [Hi Hc].
  apply String.eqb_eq in Ht, Hc. by destruct (H i Hi Ht).
Qed.

(** X9. For a ticker that the instrument table does not list in
    roubles, [download_for_ticker] sends no request and does not sleep,
    whatever the fuel and the dates, and leaves the raw directory as it
    was; on a ticker directory without any file it returns [None] and
    changes nothing, and so does [get_data]. *)
Theorem unknown_ticker_sends_nothing fuel e ticker start_date end_date w :
  (forall i, In i (df_screener_all e) -> ins_ticker i = ticker ->
             ins_currency i <> "rub"%string) ->
  (exists r w',
     download_for_ticker fuel e ticker start_date end_date w = Some (r, w') /\
     requests w' = requests w /\ slept w' = slept w /\
     raw_dir (store w') = raw_dir (store w)) /\
  (store w = empty_storage ->
     download_for_ticker fuel e ticker start_date end_date w = Some (None, w) /\
     forall timeframe force,
       get_data fuel e ticker start_date end_date timeframe force w = Some (None, w)).
Proof.
  intros H. apply ticker_rows_nil in H.
  assert (download_for_ticker fuel e ticker start_date end_date w =
            match load_raw_csv_files (extract_raw_data (store w)) with
            | Some data =>
                Some (Some (between start_date end_date data),
                      World (snd (save_processed_data
                                    (between start_date end_date data) (store w)))
                            (requests w) (slept w))
            | None => Some (None, w)
            end) as E.
  { unfold download_for_ticker, get_figi, get_isin, get_uid. rewrite H. simpl.
    by destruct (load_raw_csv_files _). }
  split.
  - rewrite E. destruct (load_raw_csv_files _); eexists _, _; (split; [done|]); done.
  - intros Hst.
    assert (download_for_ticker fuel e ticker start_date end_date w = Some (None, w))
      as E' by (by rewrite E, Hst).
    split; [done|]. intros timeframe force. rewrite get_data_halves.
    unfold obtain. rewrite Hst at 1. simpl.
    destruct force; by rewrite E'.
Qed.

Lemma unknown_ticker_sends_nothing_witness :
  get_data 0 e_known "GAZP" jan01 dec31 "1d" false w0 = Some (None, w0).
Proof.
  refine (proj2 (proj2 (unknown_ticker_sends_nothing 0 e_known "GAZP" jan01 dec31 w0 _)
                   eq_refl) _ _).
  intros i [<-|[]] E. discriminate E.
Defined.

(** ** The manager, further *)

Lemma strictly_ascending_first_occurrence df b :
  strictly_ascending df -> In b df -> first_occurrence b df.
Proof.
  unfold strictly_ascending. induction 1 as [|c rest Hs IH Hc]; [done|].
  intros [<-|Hb].
  - exists [], rest. split; [done|]. by intros ? [].
  - destruct (IH Hb) as (l1 & l2 & -> & Hl1).
    exists (c :: l1), l2. split; [done|]. intros d [<-|Hd]; [|by apply Hl1].
    rewrite List.Forall_forall in Hc. specialize (Hc b Hb). simpl in Hc. lia.
Qed.

Lemma first_occurrence_cons b c df :
  first_occurrence b (c :: df) <->
  b = c \/ (date c <> date b /\ first_occurrence b df).
Proof.
  split.
  - intros (l1 & l2 & E & Hl1). destruct l1 as [|d l1]; simpl in E; inversion E; subst.
    + by left.
    + right. split; [apply Hl1; by left|].
      exists l1, l2. split; [done|]. intros; apply Hl1; by right.
  - intros [->|[Hne (l1 & l2 & -> & Hl1)]].
    + exists [], df. split; [done|]. by intros ? [].
    + exists (c :: l1), l2. split; [done|]. intros d [<-|Hd]; [done|by apply Hl1].
Qed.

Lemma first_occurrence_app b df1 df2 :
  first_occurrence b (df1 ++ df2) <->
  first_occurrence b df1 \/
  (first_occurrence b df2 /\ ~ In (date b) (map date df1)).
Proof.
  induction df1 as [|c df1 IH]; simpl.
  - split; [intros H; right; split; [done|by intros []]|].
    intros [(l1 & l2 & E & _)|[H _]]; [by destruct l1|done].
  - rewrite !first_occurrence_cons, IH. split.
    + intros [->|[Hne [H|[H Hn]]]]; [by left; left|by left; right|].
      right. split; [done|]. intros [E|Hin]; [done|by apply Hn].
    + intros [[->|[Hne H]]|[H Hn]]; [by left|by right; split; [|left]|].
      right. split; [intros E; apply Hn; by left|].
      right. split; [done|]. intros Hin. apply Hn. by right.
Qed.

Lemma merge_In existing_data new_data b :
  In b (merge existing_data new_data) <->
  first_occurrence b (existing_data ++ new_data).
Proof.
  unfold merge, concat_frames. simpl. rewrite app_nil_r.
  rewrite sort_values_In. apply drop_duplicates_In.
Qed.

Lemma merge_strict existing_data new_data :
  strictly_ascending (merge existing_data new_data).
Proof. apply normal_form_strict. Qed.

Lemma drop_duplicates_from_length ts df :
  (length (drop_duplicates_from ts df) <= length df)%nat.
Proof.
  revert ts. induction df as [|c rest IH]; intros ts; simpl; [lia|].
  destruct (seen (date c) ts); simpl.
  - specialize (IH ts). lia.
  - specialize (IH (date c :: ts)). lia.
Qed.

(** X10. The merge of a download into a series with distinct dates
    keeps every row of the series and adds, from the download, the first
    row of each date that the series does not have yet; the dates of the
    result are the dates of the two frames together, each once, in
    ascending order. *)
Theorem merge_adds_new_dates existing_data new_data :
  strictly_ascending existing_data ->
  (forall b, In b (merge existing_data new_data) <->
     In b existing_data \/
     (first_occurrence b new_data /\ ~ In (date b) (map date existing_data))) /\
  (forall t, In t (map date (merge existing_data new_data)) <->
     In t (map date existing_data) \/ In t (map date new_data)) /\
  strictly_ascending (merge existing_data new_data) /\
  (length existing_data <= length (merge existing_data new_data)
     <= length existing_data + length new_data)%nat.
Proof.
  intros Hs.
  assert (forall b, In b existing_data -> In b (merge existing_data new_data)) as Hkeep.
  { intros b Hb. apply merge_In, first_occurrence_app. left.
    by apply strictly_ascending_first_occurrence. }
  split; [|split; [|split; [apply merge_strict|]]].
  - intros b. rewrite merge_In, first_occurrence_app. split.
    + intros [H|H]; [left; by apply first_occurrence_In|by right].
    + intros [H|H]; [left; by apply strictly_ascending_first_occurrence|by right].
  - intros t. unfold merge, concat_frames. simpl. rewrite app_nil_r.
    by rewrite normal_form_dates, map_app, in_app_iff.
  - split.
    + apply NoDup_incl_length; [|exact Hkeep].
      eapply NoDup_map_inv, strictly_ascending_NoDup, Hs.
    + unfold merge, concat_frames. simpl. rewrite app_nil_r.
      rewrite sort_values_length, <- length_app.
      apply drop_duplicates_from_length.
Qed.

Lemma merge_adds_new_dates_witness :
  In first_bar (merge [first_bar] [first_bar_again; last_bar]) /\
  In last_bar (merge [first_bar] [first_bar_again; last_bar]) /\
  ~ In first_bar_again (merge [first_bar] [first_bar_again; last_bar]).
Proof.
  assert (strictly_ascending [first_bar]) as Hs
    by (unfold strictly_ascending; repeat constructor).
  destruct (merge_adds_new_dates [first_bar] [first_bar_again; last_bar] Hs)
    as (Hin & _).
  split; [apply Hin; left; left; reflexivity|]. split.
  - apply Hin. right. split.
    + exists [first_bar_again], []. split; [reflexivity|].
      intros c [<-|[]]. discriminate.
    + intros [E|[]]. discriminate E.
  - intros H. apply Hin in H as [[E|[]]|[_ Hn]]; [discriminate E|].
    apply Hn. left. reflexivity.
Defined.

Lemma backfill_keeps fuel e ticker missing_ranges :
  forall existing_data w existing_data' w',
  backfill fuel e ticker missing_ranges existing_data w = Some (existing_data', w') ->
  strictly_ascending existing_data ->
  strictly_ascending existing_data' /\
  forall b, In b existing_data -> In b existing_data'.
Proof.
  induction missing_ranges as [|[range_start range_end] rest IH];
    intros existing_data w existing_data' w' H Hs; simpl in H.
  - by inversion H; subst.
  - destruct (download_for_ticker _ _ _ _ _ _) as [[new_data w1]|]; [|done].
    apply IH in H as [Hs' Hin'].
    + split; [done|]. intros b Hb. apply Hin'.
      destruct new_data as [new_data|]; [|done].
      destruct (0 <? length new_data)%nat; [|done].
      apply merge_In, first_occurrence_app. left.
      by apply strictly_ascending_first_occurrence.
    + destruct new_data as [new_data|]; [|done].
      destruct (0 <? length new_data)%nat; [apply merge_strict|done].
Qed.

Lemma load_processed_data_strict st df :
  load_processed_data st = Some df -> strictly_ascending df.
Proof.
  rewrite load_processed_data_rows. destruct (processed_dir st); [done|].
  intros H. inversion H. apply normal_form_strict.
Qed.

Lemma obtain_facts fuel e ticker start_date end_date force w data w' :
  obtain fuel e ticker start_date end_date force w = Some (Some data, w') ->
  ascending data /\
  (forall b, In b data -> start_date <= date b <= end_date) /\
  (forall existing_data,
     force = false -> load_processed_data (store w) = Some existing_data ->
     strictly_ascending data /\
     forall b, In b existing_data -> start_date <= date b <= end_date -> In b data).
Proof.
  unfold obtain. intros H.
  assert (download_for_ticker fuel e ticker start_date end_date w = Some (Some data, w') ->
          ascending data /\ forall b, In b data -> start_date <= date b <= end_date)
    as Hdl.
  { intros E. apply download_for_ticker_data in E as (? & ? & _). done. }
  destruct force; simpl in H.
  { destruct (Hdl H). split; [done|]. split; [done|]. by intros. }
  destruct (load_processed_data (store w)) as [existing|] eqn:El.
  - destruct (backfill _ _ _ _ _ _) as [[existing' w1]|] eqn:Eb; [|done].
    inversion H; subst data w'. clear H.
    apply backfill_keeps in Eb as [Hs Hin];
      [|by eapply load_processed_data_strict].
    assert (strictly_ascending (between start_date end_date existing')) as Hs'
      by by apply filter_strictly_ascending.
    split; [by apply strictly_ascending_ascending|].
    split; [intros b Hb; by apply between_In in Hb as [_ ?]|].
    intros existing_data _ E. inversion E; subst existing_data.
    split; [done|]. intros b Hb Hr. apply between_In. split; [by apply Hin|done].
  - destruct (Hdl H). split; [done|]. split; [done|]. by intros.
Qed.

Lemma get_data_minute fuel e ticker start_date end_date timeframe force w data w' :
  get_data fuel e ticker start_date end_date timeframe force w
    = Some (Some (Minute data), w') ->
  obtain fuel e ticker start_date end_date force w = Some (Some data, w').
Proof.
  rewrite get_data_halves. unfold convert.
  destruct (obtain _ _ _ _ _ _ _) as [[[d|] w1]|]; [|done..].
  destruct (_ && _); intros H; by inversion H.
Qed.

(** X11. When [get_data] returns minute data, the rows are in date
    order and every row lies within the requested dates, bounds included;
    when the data came from the cache (no forced download, something
    persisted), no two rows have the same date. *)
Theorem get_data_in_range_and_order
    fuel e ticker start_date end_date timeframe force w data w' :
  get_data fuel e ticker start_date end_date timeframe force w
    = Some (Some (Minute data), w') ->
  ascending data /\
  (forall b, In b data -> start_date <= date b <= end_date) /\
  (force = false -> load_processed_data (store w) <> None ->
     strictly_ascending data).
Proof.
  intros H. apply get_data_minute, obtain_facts in H as (Hs & Hr & Hc).
  split; [done|]. split; [done|]. intros Hf Hl.
  destruct (load_processed_data (store w)) as [existing|] eqn:E; [|done].
  by destruct (Hc existing Hf eq_refl).
Qed.

Lemma get_data_in_range_and_order_witness :
  exists data w',
    get_data 1 e_unknown "SBER" jan01 dec31 "1min" false w0
      = Some (Some (Minute data), w') /\
    ascending data /\
    forall b, In b data -> jan01 <= date b <= dec31.
Proof.
  destruct (get_data 1 e_unknown "SBER" jan01 dec31 "1min" false w0)
    as [[[[data|rows]|] w']|] eqn:E; [|vm_compute in E; discriminate E..].
  destruct (get_data_in_range_and_order _ _ _ _ _ _ _ _ _ _ E) as (Hs & Hr & _).
  exists data, w'. split; [reflexivity|]. split; [exact Hs|exact Hr].
Defined.

(** X12. A row that [load_processed_data] returns and that lies within
    the requested dates is always among the minute rows that [get_data]
    returns without forced download: what was persisted is neither
    dropped nor replaced by what a download brings. *)
Theorem get_data_keeps_persisted_rows
    fuel e ticker start_date end_date timeframe w existing_data data w' :
  load_processed_data (store w) = Some existing_data ->
  get_data fuel e ticker start_date end_date timeframe false w
    = Some (Some (Minute data), w') ->
  forall b, In b existing_data -> start_date <= date b <= end_date -> In b data.
Proof.
  intros El H. apply get_data_minute, obtain_facts in H as (_ & _ & Hc).
  by destruct (Hc existing_data eq_refl El).
Qed.

Lemma get_data_keeps_persisted_rows_witness :
  exists data w',
    get_data 1 e_known "SBER" jan01 dec31 "1min" false (World st_gap [] 0)
      = Some (Some (Minute data), w') /\
    In last_bar data.
Proof.
  destruct (get_data 1 e_known "SBER" jan01 dec31 "1min" false (World st_gap [] 0))
    as [[[[data|rows]|] w']|] eqn:E; [|vm_compute in E; discriminate E..].
  exists data, w'. split; [reflexivity|].
  refine (get_data_keeps_persisted_rows _ _ _ _ _ _ _ [first_bar; last_bar] _ _
            _ E last_bar _ _).
  - reflexivity.
  - right. left. reflexivity.
  - split; discriminate.
Defined.

(** ** Resampling, further *)

Lemma rule_of_valid timeframe : valid_offset (rule_of timeframe).
Proof.
  unfold rule_of, to_offset.
  repeat match goal with
  | |- context [String.eqb ?a ?b] => destruct (String.eqb a b)
  end; simpl; lia.
Qed.

Lemma resample_sorted_input r df : resample r df = resample r (sort_values df).
Proof.
  unfold resample. by rewrite (sort_values_sorted _ (sort_values_ascending df)).
Qed.

Lemma list_sum_perm l l' : Permutation l l' -> list_sum l = list_sum l'.
Proof. induction 1; simpl; lia. Qed.

Lemma list_sum_add {A} (g h : A -> Z) l :
  list_sum (map (fun i => g i + h i) l) = list_sum (map g l) + list_sum (map h l).
Proof. induction l as [|x l IH]; simpl; lia. Qed.

Lemma list_sum_indicator_out k v l :
  ~ In k l -> list_sum (map (fun i => if k =? i then v else 0) l) = 0.
Proof.
  induction l as [|x l IH]; simpl; [done|]. intros Hn.
  destruct (Z.eqb_spec k x) as [->|_]; [tauto|]. rewrite IH; tauto.
Qed.

Lemma list_sum_indicator k v l :
  List.NoDup l -> In k l ->
  list_sum (map (fun i => if k =? i then v else 0) l) = v.
Proof.
  induction 1 as [|x l Hx Hn IH]; simpl; [done|]. intros [->|Hk].
  - rewrite Z.eqb_refl, list_sum_indicator_out by done. lia.
  - destruct (Z.eqb_spec k x) as [->|_]; [done|]. rewrite IH by done. lia.
Qed.

(** Summing a column bin by bin gives the sum of the column, when the
    bins are distinct and every row falls into one of them. *)
Lemma bins_sum (col : bar -> Z) (idx : bar -> Z) l df :
  List.NoDup l -> (forall b, In b df -> In (idx b) l) ->
  list_sum (map (fun i => list_sum (map col (List.filter (fun b => idx b =? i) df))) l)
  = list_sum (map col df).
Proof.
  intros Hl. induction df as [|b rest IH]; intros Hin; simpl.
  - induction l as [|x l IHl]; simpl; [done|].
    apply List.NoDup_cons_iff in Hl as [_ Hl]. by rewrite IHl.
  - rewrite <- IH by (intros; apply Hin; by right).
    rewrite <- (list_sum_indicator (idx b) (col b) l Hl) at 1
      by (apply Hin; by left).
    rewrite <- list_sum_add. f_equal. apply map_ext. intros i.
    by destruct (idx b =? i).
Qed.

Lemma last_In {A} (l : list A) x : last l = Some x -> In x l.
Proof.
  induction l as [|y [|z l] IH]; [done| |].
  - intros E. inversion E. by left.
  - intros E. right. by apply IH.
Qed.

Lemma resample_row_group r df rw :
  valid_offset r -> In rw (resample r df) ->
  exists i g,
    rw = agg (bin_label r i) g /\ forall b, In b g -> In b df.
Proof.
  intros Hr Hrw. rewrite resample_sorted_input in Hrw.
  apply resample_rows in Hrw as (i & _ & ->); [|apply sort_values_ascending].
  eexists _, _. split; [done|]. intros b Hb.
  apply bin_rows_In in Hb as [Hb _]. by apply (proj1 (sort_values_In _ _)).
Qed.






(** ** The batch, further *)

Lemma collect_absorb l : forall results,
  collect (map (fun p => (absorb (fst p), snd p)) l) results = collect l results.
Proof.
  induction l as [|[o t] rest IH]; intros results; simpl; [done|].
  destruct o; simpl; apply IH.
Qed.

Lemma imap_absorb l : forall g : nat -> string -> outcome * string,
  imap (fun i t => (absorb (fst (g i t)), snd (g i t))) l
  = map (fun p => (absorb (fst p), snd p)) (imap g l).
Proof.
  induction l as [|t rest IH]; intros g; simpl; [done|]. f_equal.
  apply (IH (fun i => g (S i))).
Qed.

(** X16. In the result of [get_data_for_multiple_tickers] a task that
    raised cannot be told from a task that returned [None]: replacing
    every raising task by one that returns [None] gives the same result. *)
Theorem errors_look_like_no_data executor tickers :
  get_data_for_multiple_tickers (fun i t => absorb (executor i t)) tickers =
  get_data_for_multiple_tickers executor tickers.
Proof.
  unfold get_data_for_multiple_tickers.
  rewrite <- (collect_absorb (imap (fun i t => (executor i t, t)) tickers)).
  f_equal. apply (imap_absorb tickers (fun i t => (executor i t, t))).
Qed.

(** ** Downloads and the raw directory *)

Lemma readable_frames_In csv_files rows :
  In rows (readable_frames csv_files) <-> In (Some rows) csv_files.
Proof.
  unfold readable_frames. rewrite in_flat_map. split.
  - intros ([df|] & Hf & Hin); [|done]. destruct Hin as [<-|[]]. done.
  - intros H. exists (Some rows). split; [done|by left].
Qed.

Lemma extract_raw_data_In st f :
  In f (extract_raw_data st) <->
  exists name members, In (name, Some members) (raw_dir st) /\ In f members.
Proof.
  unfold extract_raw_data. rewrite in_flat_map. split.
  - intros ([name [members|]] & Hf & Hin); [|done]. by exists name, members.
  - intros (name & members & Hf & Hin). by exists (name, Some members).
Qed.

Lemma stored_rows_In st b :
  In b (List.concat (readable_frames (extract_raw_data st))) <->
  exists name members rows,
    In (name, Some members) (raw_dir st) /\ In (Some rows) members /\ In b rows.
Proof.
  rewrite in_concat. split.
  - intros (rows & Hr & Hb). apply readable_frames_In, extract_raw_data_In in Hr
      as (name & members & Hf & Hm). by exists name, members, rows.
  - intros (name & members & rows & Hf & Hm & Hb). exists rows. split; [|done].
    apply readable_frames_In, extract_raw_data_In. by exists name, members.
Qed.

Lemma load_raw_rows csv_files :
  match load_raw_csv_files csv_files with
  | Some df => forall b, In b df <-> In b (List.concat (readable_frames csv_files))
  | None => readable_frames csv_files = []
  end.
Proof.
  unfold load_raw_csv_files. fold (readable_frames csv_files).
  destruct (readable_frames csv_files); [done|]. intros b.
  apply sort_values_In.
Qed.


